(** * decomprofile: the [DataProcess] session of [data_process.py]

    A shallow embedding of the class [DataProcess] (constructor,
    [generate_target_materials], [find_PSF], [checkout]) and the properties
    of it that the specification states.

    Conventions of the embedding.
    - Pixel values and the other floating-point quantities are exact
      rationals ([Q]); rounding and the non-finite values of IEEE
      arithmetic are outside the model.  Where an expression of the source
      divides, the model uses [Qdiv], which answers 0 on a zero divisor
      where IEEE arithmetic answers an infinity or [nan]; what is stated
      about a quotient is meant for a divisor that is not zero.
    - A Python attribute that may be absent ([hasattr]) is an [option]
      field; an attribute that always exists but may hold [None] is an
      [option] field too, and the comment of the field says which.
    - Exceptions are values of [exn]; a method is a function in the
      state-and-exception monad [M], whose state outlives a [raise], as the
      fields of [self] set before the failure do.
    - The helpers of [decomprofile.tools] and the numerical library are
      collaborators, gathered in the class [Tools].
    - Text is a string of code points below 256, which is what a character
      of [string] holds.  The second component of the state of [M] lists
      the lines written by [print]; the prompt of [input] is written by the
      console and is not among them.
    - Integers are unbounded ([Z]), as Python's are; the 64-bit integers
      that [np.int0] answers are integers within [int64_min] and
      [int64_max]. *)

From Stdlib Require Import ZArith QArith Qabs Qround Qfield String Ascii List Lia.
From stdpp Require Import base option list gmap strings pretty sorting.

Open Scope string_scope.
Open Scope list_scope.
Open Scope Z_scope.

(** ** Python run-time: exceptions and the method monad *)

Inductive exn : Type :=
| ValueError (msg : string)
| AttributeError (attr : string)
| UnboundLocalError (var : string)
| IndexError
| OverflowError.

Inductive res (A : Type) : Type :=
| Ok (a : A)
| Raise (e : exn).
Arguments Ok {A} a.
Arguments Raise {A} e.

Definition is_Ok {A} (r : res A) : bool :=
  match r with Ok _ => true | Raise _ => false end.

(** A computation over a world [W] (the session, and the array store where
    one is needed) that may print lines and may raise. *)
Definition M (W A : Type) : Type := W * list string → res A * (W * list string).

Definition ret {W A} (a : A) : M W A := λ σ, (Ok a, σ).

Definition bind {W A B} (m : M W A) (k : A → M W B) : M W B :=
  λ σ, match m σ with
       | (Ok a, σ') => k a σ'
       | (Raise e, σ') => (Raise e, σ')
       end.

Definition raise {W A} (e : exn) : M W A := λ σ, (Raise e, σ).

Definition get {W} : M W W := λ σ, (Ok (fst σ), σ).

Definition modify {W} (f : W → W) : M W unit := λ σ, (Ok tt, (f (fst σ), snd σ)).

Definition print {W} (line : string) : M W unit :=
  λ σ, (Ok tt, (fst σ, snd σ ++ [line])).

Definition lift {W A} (r : res A) : M W A := λ σ, (r, σ).

Definition when {W} (b : bool) (m : M W unit) : M W unit :=
  if b then m else ret tt.

#[global] Instance M_ret {W} : MRet (M W) := @ret W.
#[global] Instance M_bind {W} : MBind (M W) := λ A B k m, bind m k.

#[global] Instance res_ret : MRet res := @Ok.
#[global] Instance res_bind : MBind res :=
  λ A B k r, match r with Ok a => k a | Raise e => Raise e end.

(** [[f(x) for x in l]] where [f] may raise. *)
Fixpoint map_res {A B} (f : A → res B) (l : list A) : res (list B) :=
  match l with
  | [] => Ok []
  | x :: l' => match f x with
               | Ok y => match map_res f l' with
                         | Ok ys => Ok (y :: ys)
                         | Raise e => Raise e
                         end
               | Raise e => Raise e
               end
  end.

(** A [for] loop that updates an accumulator and may raise. *)
Fixpoint fold_res {A B} (f : B → A → res B) (acc : B) (l : list A) : res B :=
  match l with
  | [] => Ok acc
  | x :: l' => match f acc x with
               | Ok acc' => fold_res f acc' l'
               | Raise e => Raise e
               end
  end.

(** [getattr name field]: read an attribute that may be absent. *)
Definition getattr {W A} (name : string) (field : W → option A) : M W A :=
  w ← get; match field w with
           | Some a => ret a
           | None => raise (AttributeError name)
           end.

(** A local variable that is read before it was bound. *)
Definition local {W A} (name : string) (v : option A) : M W A :=
  match v with Some a => ret a | None => raise (UnboundLocalError name) end.

(** [l[i]] on a Python list: a negative index counts from the end. *)
Definition py_index (n : nat) (i : Z) : option nat :=
  let j := if i <? 0 then i + Z.of_nat n else i in
  if (0 <=? j) && (j <? Z.of_nat n) then Some (Z.to_nat j) else None.

Definition getitem {A} (l : list A) (i : Z) : res A :=
  match py_index (length l) i with
  | Some k => match l !! k with Some a => Ok a | None => Raise IndexError end
  | None => Raise IndexError
  end.

(** [int(x / d)] for integers [x], [d]: true division, then truncation
    toward zero. *)
Definition int_div (x d : Z) : Z := Z.quot x d.

(** ** Rational arithmetic helpers *)

Definition Qlt_bool (x y : Q) : bool := negb (Qle_bool y x).

Definition Qsum (l : list Q) : Q := foldr Qplus 0%Q l.

(** Conversion of a number to an integer truncates toward zero. *)
Definition truncate (x : Q) : Z := Z.quot (Qnum x) (Z.pos (Qden x)).

(** The integers of [np.int0] are 64-bit signed integers. *)
Definition int64_min : Z := -9223372036854775808.
Definition int64_max : Z := 9223372036854775807.

Definition in_int64 (z : Z) : bool := (int64_min <=? z) && (z <=? int64_max).

(** A position as a caller passes it: a Python list or tuple of two
    numbers, or an array of two floats. *)
Inductive coords : Type :=
| PySeq (xy : Q * Q)
| FloatArray (xy : Q * Q).

Definition pair_of (p : coords) : Q * Q :=
  match p with PySeq xy | FloatArray xy => xy end.

(** An entry of a Python sequence stored into a 64-bit integer array: a
    value that does not fit raises [OverflowError]. *)
Definition int64_of_number (x : Q) : res Z :=
  if in_int64 (truncate x) then Ok (truncate x) else Raise OverflowError.

(** An entry of a float array cast to a 64-bit integer: the machine
    conversion answers the smallest 64-bit integer for a value that does
    not fit. *)
Definition int64_of_float (x : Q) : Z :=
  if in_int64 (truncate x) then truncate x else int64_min.

(** [np.int0] on a position. *)
Definition int0 (p : coords) : res (Z * Z) :=
  match p with
  | PySeq xy =>
      x ← int64_of_number (fst xy);
      y ← int64_of_number (snd xy);
      Ok (x, y)
  | FloatArray xy => Ok (int64_of_float (fst xy), int64_of_float (snd xy))
  end.

(** [np.mean]; on an empty sample NumPy answers [nan], which no comparison
    accepts: callers test for the empty sample first. *)
Definition np_mean (l : list Q) : Q := (Qsum l / inject_Z (Z.of_nat (length l)))%Q.

Definition Qle_dec_rel : relation Q := λ x y, Qle_bool x y = true.

#[global] Instance Qle_dec_rel_dec : RelDecision Qle_dec_rel :=
  λ x y, decide (Qle_bool x y = true).

(** [np.median]: the middle of the sorted sample, or the mean of the two
    middle values. *)
Definition np_median (l : list Q) : Q :=
  let s := merge_sort Qle_dec_rel l in
  let n := length s in
  if Nat.even n
  then ((nth (n / 2 - 1) s 0%Q + nth (n / 2) s 0%Q) / 2)%Q
  else nth (n / 2) s 0%Q.

(** ** Two-dimensional arrays as values *)

Record image : Type := Image {
  shape0 : nat;              (* [.shape[0]], also [len] *)
  shape1 : nat;              (* [.shape[1]] *)
  pix : list (list Q)        (* the rows *)
}.

Definition shape (a : image) : nat * nat := (shape0 a, shape1 a).

Definition wf_image (a : image) : Prop :=
  length (pix a) = shape0 a ∧ Forall (λ r, length r = shape1 a) (pix a).

Definition np_sum (a : image) : Q := Qsum (concat (pix a)).

Definition map_image (f : Q → Q) (a : image) : image :=
  Image (shape0 a) (shape1 a) (map (map f) (pix a)).

Definition ones_like (a : image) : image := map_image (λ _, 1%Q) a.

(** NumPy broadcasting of two axis lengths. *)
Definition bdim (n m : nat) : option nat :=
  if (n =? m)%nat then Some n
  else if (n =? 1)%nat then Some m
  else if (m =? 1)%nat then Some n
  else None.

Definition stretch {A} (n : nat) (l : list A) : list A :=
  if (length l =? n)%nat then l
  else match l with [x] => replicate n x | _ => l end.

Definition broadcast_to (r c : nat) (a : image) : image :=
  Image r c (stretch r (map (stretch c) (pix a))).

(** An elementwise binary operator [a ∘ b] with broadcasting. *)
Definition binop (f : Q → Q → Q) (a b : image) : res image :=
  match bdim (shape0 a) (shape0 b), bdim (shape1 a) (shape1 b) with
  | Some r, Some c =>
      Ok (Image r c (zip_with (zip_with f)
                       (pix (broadcast_to r c a)) (pix (broadcast_to r c b))))
  | _, _ => Raise (ValueError "operands could not be broadcast together")
  end.

(** The in-place form [a ∘= b]: the result must have the shape of [a]. *)
Definition binop_inplace (f : Q → Q → Q) (a b : image) : res image :=
  match binop f a b with
  | Ok c => if decide (shape c = shape a) then Ok c
            else Raise (ValueError "non-broadcastable output operand")
  | Raise e => Raise e
  end.

(** [a[0,:]], [a[-1,:]], [a[:,0]], [a[:,-1]]. *)
Definition first_row (a : image) : res (list Q) :=
  match pix a with r :: _ => Ok r | [] => Raise IndexError end.

Definition last_row (a : image) : res (list Q) :=
  match last (pix a) with Some r => Ok r | None => Raise IndexError end.

Definition first_col (a : image) : res (list Q) :=
  if (shape1 a =? 0)%nat then Raise IndexError
  else Ok (map (λ r, nth 0 r 0%Q) (pix a)).

Definition last_col (a : image) : res (list Q) :=
  if (shape1 a =? 0)%nat then Raise IndexError
  else Ok (map (λ r, nth (shape1 a - 1) r 0%Q) (pix a)).

(** ** The session and its collaborators *)

(** A FITS header: the cards the session reads are numeric. *)
Abbreviation fits_header := (gmap string Q).

(** An exposure time: a number of seconds, or a map over the field. *)
Inductive exptime_t (arr : Type) : Type :=
| ExpScalar (t : Q)
| ExpMap (m : arr).
Arguments ExpScalar {arr} t.
Arguments ExpMap {arr} m.

(** A position as the session stores it in [PSF_pos_list]: a coordinate
    pair, or the N x 2 array that [all_world2pix] answers. *)
Inductive pos_value : Type :=
| Pos (xy : Q * Q)
| PosRows (rows : list (Q * Q)).

Definition pos_of_pixel (p : Z * Z) : pos_value :=
  Pos (inject_Z (fst p), inject_Z (snd p)).

(** The helpers of [decomprofile.tools], [astropy.wcs], NumPy's square
    root, and the rounding and the text form of floating-point numbers
    ([np.round], [round], [str]).  Their numerical content is not part of
    [data_process.py]; the session only routes arrays through them.
    Keyword options that the session merely forwards ([**kwargs],
    [if_plot]) are not arguments here. *)
Class Tools : Type := {
  aperture : Type;
  np_sqrt : Q → Q;
  measure_bkg : image → image;
  read_pixel_scale : fits_header → Q;
  all_world2pix : option fits_header → list (Q * Q) → Z → list (Q * Q);
  cutout : option image → Z * Z → Z → image;
  cut_center_auto : option image → pos_value → option string → Z → image * (Z * Z);
  fit_data_oneD_gaussian : list Q → Q * Q;
  esti_bgkstd : image → Q;
  detect_obj : image → list aperture;
  mask_obj : image → list aperture → list image;
  search_local_max : option image → list (Q * Q);
  measure_FWHM : image → Z → list Q;
  np_round : list Q → Z → list Q;
  py_round : Q → Z → Q;
  str_array : list Q → string;
  str_float : Q → string
}.

(** The attributes of a [DataProcess] object.  [arr] is the representation
    of an array: a value ([image]) in the methods that only read arrays or
    build new ones, a view into the array store in [checkout], which
    divides an array in place. *)
Record DataProcess {T : Tools} {arr : Type} : Type := mkDataProcess {
  target_pos : Z * Z;
  exptime : option (exptime_t arr);    (* may hold None *)
  if_plot : bool;
  header : option fits_header;         (* may hold None *)
  deltaPix : option Q;                 (* absent when no header was given *)
  fov_image : option arr;              (* may hold None *)
  fov_noise_map : option arr;          (* may hold None *)
  psf_id_for_fitting : option Z;       (* set to 0 by the constructor *)
  zp : Q;
  bkg_std : option Q;                  (* absent until estimated *)
  noise_map : option arr;              (* absent until generated *)
  apertures : option (list aperture);  (* absent until generated *)
  target_stamp : option arr;           (* absent until generated *)
  target_mask : option arr;            (* absent until generated *)
  PSF_pos_list : option (list pos_value);  (* absent until find_PSF *)
  PSF_list : option (list arr)         (* absent until find_PSF *)
}.
Arguments DataProcess {T} arr.
Arguments mkDataProcess {T arr}.

Section Setters.
Context {T : Tools} {arr : Type}.
Implicit Type s : DataProcess arr.

Definition set_target_pos (v : Z * Z) s : DataProcess arr :=
  mkDataProcess v (exptime s) (if_plot s) (header s) (deltaPix s)
    (fov_image s) (fov_noise_map s) (psf_id_for_fitting s) (zp s)
    (bkg_std s) (noise_map s) (apertures s) (target_stamp s)
    (target_mask s) (PSF_pos_list s) (PSF_list s).

Definition set_bkg_std (v : Q) s : DataProcess arr :=
  mkDataProcess (target_pos s) (exptime s) (if_plot s) (header s) (deltaPix s)
    (fov_image s) (fov_noise_map s) (psf_id_for_fitting s) (zp s)
    (Some v) (noise_map s) (apertures s) (target_stamp s)
    (target_mask s) (PSF_pos_list s) (PSF_list s).

Definition set_noise_map (v : arr) s : DataProcess arr :=
  mkDataProcess (target_pos s) (exptime s) (if_plot s) (header s) (deltaPix s)
    (fov_image s) (fov_noise_map s) (psf_id_for_fitting s) (zp s)
    (bkg_std s) (Some v) (apertures s) (target_stamp s)
    (target_mask s) (PSF_pos_list s) (PSF_list s).

Definition set_apertures (v : list aperture) s : DataProcess arr :=
  mkDataProcess (target_pos s) (exptime s) (if_plot s) (header s) (deltaPix s)
    (fov_image s) (fov_noise_map s) (psf_id_for_fitting s) (zp s)
    (bkg_std s) (noise_map s) (Some v) (target_stamp s)
    (target_mask s) (PSF_pos_list s) (PSF_list s).

Definition set_target_stamp (v : arr) s : DataProcess arr :=
  mkDataProcess (target_pos s) (exptime s) (if_plot s) (header s) (deltaPix s)
    (fov_image s) (fov_noise_map s) (psf_id_for_fitting s) (zp s)
    (bkg_std s) (noise_map s) (apertures s) (Some v)
    (target_mask s) (PSF_pos_list s) (PSF_list s).

Definition set_target_mask (v : arr) s : DataProcess arr :=
  mkDataProcess (target_pos s) (exptime s) (if_plot s) (header s) (deltaPix s)
    (fov_image s) (fov_noise_map s) (psf_id_for_fitting s) (zp s)
    (bkg_std s) (noise_map s) (apertures s) (target_stamp s)
    (Some v) (PSF_pos_list s) (PSF_list s).

Definition set_PSF_pos_list (v : list pos_value) s : DataProcess arr :=
  mkDataProcess (target_pos s) (exptime s) (if_plot s) (header s) (deltaPix s)
    (fov_image s) (fov_noise_map s) (psf_id_for_fitting s) (zp s)
    (bkg_std s) (noise_map s) (apertures s) (target_stamp s)
    (target_mask s) (Some v) (PSF_list s).

Definition set_PSF_list (v : list arr) s : DataProcess arr :=
  mkDataProcess (target_pos s) (exptime s) (if_plot s) (header s) (deltaPix s)
    (fov_image s) (fov_noise_map s) (psf_id_for_fitting s) (zp s)
    (bkg_std s) (noise_map s) (apertures s) (target_stamp s)
    (target_mask s) (PSF_pos_list s) (Some v).
End Setters.

(** ** [__init__] *)

Section Init.
Context {T : Tools}.

(** The constructor.  It either raises, and then no object exists, or
    answers the new session; the second component is what it printed. *)
Definition init (fov_image_arg : option image) (target_pos_arg : option coords)
    (pos_type : string) (header_arg : option fits_header)
    (exptime_arg : option (exptime_t image)) (fov_noise_map_arg : option image)
    (rm_bkglight if_plot_arg : bool) (zp_arg : option Q)
  : res (DataProcess image) * list string :=
  match target_pos_arg with
  | None => (Raise (ValueError "'target_pos' must be assigned."), [])
  | Some tp =>
    let located : res coords :=
      if String.eqb pos_type "pixel" then Ok tp
      else if String.eqb pos_type "wcs" then
        match all_world2pix header_arg [pair_of tp] 1 with
        | p :: _ => Ok (FloatArray p)
        | [] => Raise IndexError
        end
      else Raise (ValueError "'pos_type' is should be either 'pixel' or 'wcs'.") in
    match located ≫= int0 with
    | Raise e => (Raise e, [])
    | Ok pos =>
      let scale := read_pixel_scale <$> header_arg in
      let out1 :=
        match scale with
        | Some d => if Qeq_bool d 3600
                    then ["WARNING: pixel size could not read from the header! "]
                    else []
        | None => []
        end in
      let image : res (option image) :=
        match fov_image_arg with
        | Some img =>
            if rm_bkglight
            then match binop Qminus img (measure_bkg img) with
                 | Ok img' => Ok (Some img')
                 | Raise e => Raise e
                 end
            else Ok (Some img)
        | None => Ok None
        end in
      match image with
      | Raise e => (Raise e, out1)
      | Ok img =>
        let out2 :=
          match zp_arg with
          | None => ["Zeropoint value is not provided, use 27.0 to calculate magnitude."]
          | Some _ => []
          end in
        (Ok (mkDataProcess pos exptime_arg if_plot_arg header_arg scale
               img fov_noise_map_arg (Some 0) (default 27%Q zp_arg)
               None None None None None None None),
         out1 ++ out2)
      end
    end
  end.
End Init.

(** ** Console input

    The interpreter is Python 3, where the source tests the typed words
    with [str.isnumeric].  A character is numeric when it is a decimal
    digit or one of the six other numeric characters below 256; [int]
    accepts the decimal digits only and refuses the others with
    [ValueError]. *)

Definition digit_of_ascii (c : ascii) : option Z :=
  let n := N.of_nat (nat_of_ascii c) in
  if ((48 <=? n) && (n <=? 57))%N then Some (Z.of_N n - 48) else None.

(** The numeric characters below 256 that are not decimal digits: the
    superscripts two, three and one, and the fractions one quarter, one
    half and three quarters. *)
Definition other_numeric (c : ascii) : bool :=
  bool_decide (N.of_nat (nat_of_ascii c) ∈ [178; 179; 185; 188; 189; 190]%N).

Definition is_decimal (c : ascii) : bool := bool_decide (is_Some (digit_of_ascii c)).

(** [s.isnumeric()]: not empty, and numeric characters only. *)
Definition isnumeric (s : string) : bool :=
  match s with
  | EmptyString => false
  | _ => forallb (λ c, is_decimal c || other_numeric c) (list_ascii_of_string s)
  end.

(** The value of a string of decimal digits. *)
Definition int_of_digits (s : string) : Z :=
  fold_left (λ acc c, 10 * acc + default 0 (digit_of_ascii c)) (list_ascii_of_string s) 0.

(** [int(s)] for a string [s] of numeric characters: [int] accepts the
    decimal digits only, and at least one of them. *)
Definition int_of_numeric (s : string) : res Z :=
  if negb (String.eqb s "") && forallb is_decimal (list_ascii_of_string s)
  then Ok (int_of_digits s)
  else Raise (ValueError ("invalid literal for int() with base 10: '" ++ s ++ "'")).

(** [s.split(" ")]. *)
Fixpoint split_spaces (s : string) : list string :=
  match s with
  | EmptyString => [EmptyString]
  | String c s' =>
      if Ascii.eqb c " "%char then EmptyString :: split_spaces s'
      else match split_spaces s' with
           | w :: ws => String c w :: ws
           | [] => [String c EmptyString]
           end
  end.

(** ** [generate_target_materials] *)

Section GenerateTargetMaterials.
Context {T : Tools}.
Abbreviation W := (DataProcess image).

Definition default_radius_list : list Z := [30; 35; 40; 45; 50; 60; 70].

(** The four border rows and columns of a stamp, concatenated. *)
Definition edge_data (c : image) : res (list Q) :=
  r0 ← first_row c; r1 ← last_row c; c0 ← first_col c; c1 ← last_col c;
  Ok (r0 ++ r1 ++ c0 ++ c1).

(** The body of the radius loop up to [percent]: the fraction of edge
    pixels above the fitted mean plus two sigma. *)
Definition edge_percent (self : W) (rad : Z) : res Q :=
  let _cut_data := cutout (fov_image self) (target_pos self) rad in
  edge ← edge_data _cut_data;
  let fit := fit_data_oneD_gaussian edge in
  let up_limit := (fst fit + 2 * snd fit)%Q in
  Ok (inject_Z (Z.of_nat (length (filter (λ x, Qlt_bool up_limit x = true) edge)))
      / inject_Z (Z.of_nat (length edge)))%Q.

(** [for rad in radius_list: ... if percent<0.03: break]; the answer is
    the binding of [rad] when the loop is left, if any. *)
Fixpoint radius_loop (self : W) (radius_list : list Z) (rad : option Z)
  : res (option Z) :=
  match radius_list with
  | [] => Ok rad
  | r :: rest =>
      match edge_percent self r with
      | Ok percent =>
          if Qlt_bool percent (3 # 100) then Ok (Some r)
          else radius_loop self rest (Some r)
      | Raise e => Raise e
      end
  end.

(** Lines 107-119: the radius the method works with. *)
Definition choose_radius (self : W) (radius : option Z) (radius_list : option (list Z))
  : res Z :=
  match radius with
  | Some r => Ok r
  | None =>
      match radius_loop self (default default_radius_list radius_list) None with
      | Ok (Some rad) => Ok rad
      | Ok None => Raise (UnboundLocalError "rad")
      | Raise e => Raise e
      end
  end.

(** Lines 137-142: the exposure time the noise estimate uses. *)
Definition resolve_exptime (self : W) : res (exptime_t image) :=
  match exptime self with
  | Some e => Ok e
  | None =>
      match header self with
      | None => Raise (AttributeError "keys")
      | Some h =>
          match h !! "EXPTIME" with
          | Some t => Ok (ExpScalar t)
          | None => Raise (ValueError
              "No Exposure time information in the header, should input a value.")
          end
      end
  end.

(** Lines 132-146: the photon-statistics noise map. *)
Definition estimate_noise (target_stamp : image) (radius : Z)
    (bkg_std_arg : option Q) : M W unit :=
  self ← get;
  (match bkg_std_arg with
   | None =>
       let target_2xlarger_stamp :=
         cutout (fov_image self) (target_pos self) (radius * 2) in
       modify (set_bkg_std (esti_bgkstd target_2xlarger_stamp))
   | Some _ => ret tt
   end);;
  exptime_now ← lift (resolve_exptime self);
  let exptime_stamp :=
    match exptime_now with
    | ExpMap m => Some (cutout (Some m) (target_pos self) radius)
    | ExpScalar _ => None
    end in
  es ← local "exptime_stamp" exptime_stamp;
  ratio ← lift (binop Qdiv target_stamp es);
  b ← getattr "bkg_std" bkg_std;
  modify (set_noise_map (map_image (λ x, np_sqrt (Qabs x + b ^ 2)) ratio)).

(** Lines 152-161: the mask built from the indices typed at the prompt. *)
Definition select_mask (target_stamp : image) (aps : list aperture)
    (console : string) : res (list aperture * image) :=
  let chars := map (λ c, String c EmptyString) (list_ascii_of_string console) in
  select_idx ← map_res int_of_numeric (filter (λ c, isnumeric c = true) chars);
  apertures_ ← map_res (getitem aps) select_idx;
  let rest :=
    omap (λ ia : nat * aperture,
            if bool_decide (Z.of_nat (fst ia) ∈ select_idx) then None
            else Some (snd ia))
         (zip (seq 0 (length aps)) aps) in
  let mask_list := mask_obj target_stamp apertures_ in
  target_mask ← fold_res (binop_inplace Qmult) (ones_like target_stamp) mask_list;
  Ok (rest, target_mask).

(** The method.  [console] is the line that [input] reads when
    [create_mask] is set.  The plots are not modelled. *)
Definition generate_target_materials (cut_kernel : option string)
    (radius : option Z) (radius_list : option (list Z))
    (bkg_std_arg : option Q) (create_mask : bool)
    (if_plot_arg : option bool) (console : string) : M W unit :=
  self ← get;
  let if_plot_now := default (if_plot self) if_plot_arg in
  radius ← lift (choose_radius self radius radius_list);
  when if_plot_now (print "Plot target cut out zoom in:");;
  target_stamp ←
    match cut_kernel with
    | Some k =>
        let cut := cut_center_auto (fov_image self)
                     (pos_of_pixel (target_pos self)) (Some k) radius in
        modify (set_target_pos (snd cut));; ret (fst cut)
    | None => ret (cutout (fov_image self) (target_pos self) radius)
    end;
  self ← get;
  (match fov_noise_map self with
   | Some nm => modify (set_noise_map (cutout (Some nm) (target_pos self) radius))
   | None => estimate_noise target_stamp radius bkg_std_arg
   end);;
  masked ←
    (if create_mask
     then lift (select_mask target_stamp (detect_obj target_stamp) console)
     else ret (detect_obj target_stamp, ones_like target_stamp));
  modify (set_apertures (fst masked));;
  modify (set_target_stamp target_stamp);;
  modify (set_target_mask (snd masked)).
End GenerateTargetMaterials.

(** ** [find_PSF] *)

Section FindPSF.
Context {T : Tools}.
Abbreviation W := (DataProcess image).

(** [np.std]: the square root of the mean squared deviation. *)
Definition np_std (l : list Q) : Q :=
  let m := np_mean l in
  np_sqrt (np_mean (map (λ x, (x - m) ^ 2)%Q l)).

(** Line 199, [np.std(_fwhms)/np.mean(_fwhms) < 0.1].  On an empty sample
    or a zero mean the quotient is not a finite number and the
    comparison answers False. *)
Definition spread_below_tenth (_fwhms : list Q) : bool :=
  match _fwhms with
  | [] => false
  | _ => if Qeq_bool (np_mean _fwhms) 0 then false
         else Qlt_bool (np_std _fwhms / np_mean _fwhms) (1 # 10)
  end.

(** What the search keeps of a candidate: its location, its mean FWHM
    and its flux (the three lists [init_PSF_locs], [FWHMs], [fluxs] grow
    together). *)
Record candidate : Type := Candidate {
  c_loc : Q * Q;
  c_fwhm : Q;
  c_flux : Q
}.

(** Lines 196-198: the FWHM sample of a detected maximum. *)
Definition fwhms_at (self : W) (radius : Z) (loc : Q * Q) : list Q :=
  measure_FWHM (fst (cut_center_auto (fov_image self) (Pos loc) None radius))
               (int_div radius 5).

(** Lines 193-202. *)
Definition survivors (self : W) (radius : Z) : list candidate :=
  omap (λ loc,
          let cut_image := fst (cut_center_auto (fov_image self) (Pos loc) None radius) in
          let _fwhms := measure_FWHM cut_image (int_div radius 5) in
          if spread_below_tenth _fwhms
          then Some (Candidate loc (np_mean _fwhms) (np_sum cut_image))
          else None)
       (search_local_max (fov_image self)).

(** Lines 206-210. *)
Definition select_bool (self : W) (cands : list candidate) : list bool :=
  let limit := (np_median (map c_fwhm cands) * (3 # 2))%Q in
  match target_stamp self with
  | Some stamp =>
      let target_flux := np_sum stamp in
      map (λ c, Qlt_bool (c_fwhm c) limit
                && Qlt_bool (c_flux c) (target_flux * 10)
                && Qlt_bool (target_flux / 2) (c_flux c)) cands
  | None => map (λ c, Qlt_bool (c_fwhm c) limit) cands
  end.

(** [a[mask]] for a boolean mask of the same length. *)
Definition mask_select {A} (l : list A) (mask : list bool) : list A :=
  omap (λ xb : A * bool, if snd xb then Some (fst xb) else None) (zip l mask).

(** Lines 211-213: the candidates that pass the FWHM and flux cuts. *)
Definition kept (self : W) (radius : Z) : list candidate :=
  let cands := survivors self radius in
  mask_select cands (select_bool self cands).

Definition Qmin_list (l : list Q) : option Q :=
  match l with
  | [] => None
  | x :: l' => Some (foldl (λ m y, if Qlt_bool y m then y else m) x l')
  end.

(** [np.where(FWHMs == FWHMs.min())[0][0]]. *)
Definition argmin_first (l : list Q) : res nat :=
  match Qmin_list l with
  | None => Raise (ValueError "zero-size array to reduction operation minimum")
  | Some m =>
      match list_find (λ x, Qeq_bool x m = true) l with
      | Some (i, _) => Ok i
      | None => Raise IndexError
      end
  end.

(** Lines 218-221: the two lines printed for the kept candidate of index
    [i].  [print] separates its arguments by one space. *)
Definition candidate_lines (self : W) (radius : Z) (i : nat) (c : candidate)
  : list string :=
  let cut_image := fst (cut_center_auto (fov_image self) (Pos (c_loc c))
                          (Some "center_gaussian") radius) in
  [ ("PSF location: " ++ str_array [fst (c_loc c); snd (c_loc c)])%string;
    ("id: " ++ pretty (Z.of_nat i)
       ++ " FWHMs: " ++ str_array (np_round (measure_FWHM cut_image (int_div radius 5)) 3)
       ++ " flux: " ++ str_float (py_round (np_sum cut_image) 1))%string ].

(** Lines 215-222: the listing of the kept candidates. *)
Definition listing (self : W) (radius : Z) (cands : list candidate) : list string :=
  concat (imap (candidate_lines self radius) cands).

Fixpoint print_lines (lines : list string) : M W unit :=
  match lines with
  | [] => ret tt
  | l :: ls => print l;; print_lines ls
  end.

(** Lines 214-232: which of the kept candidates become PSF positions.
    With [user_option] the candidates are listed first, then the line
    read by [input] is split at the spaces and its numeric words are
    converted; the plots are not modelled. *)
Definition choose_positions (radius : Z) (cands : list candidate) (user_option : bool)
    (console : string) : M W (list pos_value) :=
  if user_option then
    self ← get;
    print_lines (listing self radius cands);;
    select_idx ← lift (map_res int_of_numeric
                         (filter (λ w, isnumeric w = true) (split_spaces console)));
    lift (map_res (λ i, c ← getitem cands i; Ok (Pos (c_loc c))) select_idx)
  else
    lift (i ← argmin_first (map c_fwhm cands);
          c ← getitem cands (Z.of_nat i);
          Ok [Pos (c_loc c)]).

(** Lines 233-238: the positions given by the caller. *)
Definition explicit_positions (given : list (Q * Q)) (pos_type : string) : M W unit :=
  if String.eqb pos_type "pixel" then modify (set_PSF_pos_list (map Pos given))
  else if String.eqb pos_type "wcs" then
    self ← get;
    old ← getattr "PSF_pos_list" PSF_pos_list;
    new ← lift (map_res
                  (λ i, p ← getitem given (Z.of_nat i);
                        Ok (PosRows (all_world2pix (header self) [p] 1)))
                  (seq 0 (length old)));
    modify (set_PSF_pos_list new)
  else ret tt.

Definition find_PSF (radius : Z) (PSF_pos_list_arg : option (list (Q * Q)))
    (pos_type : string) (user_option : bool) (console : string) : M W unit :=
  (match PSF_pos_list_arg with
   | None =>
       self ← get;
       chosen ← choose_positions radius (kept self radius) user_option console;
       modify (set_PSF_pos_list chosen)
   | Some given => explicit_positions given pos_type
   end);;
  self ← get;
  positions ← getattr "PSF_pos_list" PSF_pos_list;
  modify (set_PSF_list
            (map (λ c, fst (cut_center_auto (fov_image self) c
                              (Some "center_gaussian") radius))
                 positions)).
End FindPSF.

(** ** The array store, for [checkout]

    [checkout] divides the selected PSF stamp in place.  A NumPy array is a
    window on a buffer; a slice of it is another window on the same buffer,
    and an in-place operator writes through the window into the buffer. *)

Record ndarray : Type := NdArray {
  base : nat;        (* the buffer the array looks into *)
  row0 : nat;        (* offset of the window in the buffer *)
  col0 : nat;
  nrows : nat;       (* [.shape[0]] *)
  ncols : nat        (* [.shape[1]] *)
}.

Abbreviation heap := (gmap nat (list (list Q))).

Definition window (a : ndarray) (buf : list (list Q)) : list (list Q) :=
  map (λ r, take (ncols a) (drop (col0 a) r)) (take (nrows a) (drop (row0 a) buf)).

(** The value an array has in a store. *)
Definition read (h : heap) (a : ndarray) : image :=
  Image (nrows a) (ncols a) (window a (default [] (h !! base a))).

(** The window lies inside its buffer. *)
Definition wf_view (h : heap) (a : ndarray) : Prop :=
  ∃ buf, h !! base a = Some buf
       ∧ (row0 a + nrows a ≤ length buf)%nat
       ∧ Forall (λ r, (col0 a + ncols a ≤ length r)%nat) buf.

Definition in_window (a : ndarray) (i j : nat) : bool :=
  ((row0 a <=? i) && (i <? row0 a + nrows a) && (col0 a <=? j) && (j <? col0 a + ncols a))%nat.

Definition update_window (f : Q → Q) (a : ndarray) (buf : list (list Q)) : list (list Q) :=
  imap (λ i r, imap (λ j x, if in_window a i j then f x else x) r) buf.

(** [a /= d]: every pixel of the window is divided, in the buffer. *)
Definition idiv (a : ndarray) (d : Q) (h : heap) : heap :=
  alter (update_window (λ x, x / d)%Q a) (base a) h.


(** [slice(start, stop).indices(n)] for unit step: offset and length. *)
Definition slice_bounds (n : nat) (start stop : Z) : nat * nat :=
  let clamp i := Z.max 0 (Z.min (Z.of_nat n) (if i <? 0 then i + Z.of_nat n else i)) in
  (Z.to_nat (clamp start), Z.to_nat (clamp stop - clamp start)).

(** [a[start:stop, :]] and [a[:, start:stop]]: views on the same buffer. *)
Definition slice_rows (a : ndarray) (start stop : Z) : ndarray :=
  let b := slice_bounds (nrows a) start stop in
  NdArray (base a) (row0 a + fst b) (col0 a) (snd b) (ncols a).

Definition slice_cols (a : ndarray) (start stop : Z) : ndarray :=
  let b := slice_bounds (ncols a) start stop in
  NdArray (base a) (row0 a) (col0 a + fst b) (nrows a) (snd b).

(** ** [checkout] *)

Section Checkout.
Context {T : Tools}.
Abbreviation W := (DataProcess ndarray * heap)%type.

Definition checklist : list string :=
  ["deltaPix"; "target_stamp"; "noise_map"; "target_mask"; "PSF_list";
   "psf_id_for_fitting"].

(** [hasattr(self, name)] for the names of the checklist. *)
Definition hasattr (self : DataProcess ndarray) (name : string) : bool :=
  if String.eqb name "deltaPix" then bool_decide (is_Some (deltaPix self))
  else if String.eqb name "target_stamp" then bool_decide (is_Some (target_stamp self))
  else if String.eqb name "noise_map" then bool_decide (is_Some (noise_map self))
  else if String.eqb name "target_mask" then bool_decide (is_Some (target_mask self))
  else if String.eqb name "PSF_list" then bool_decide (is_Some (PSF_list self))
  else if String.eqb name "psf_id_for_fitting"
       then bool_decide (is_Some (psf_id_for_fitting self))
  else false.

(** [self.PSF_list[self.psf_id_for_fitting]] as an expression. *)
Definition current_psf : M W ndarray :=
  l ← getattr "PSF_list" (λ w, PSF_list (fst w));
  i ← getattr "psf_id_for_fitting" (λ w, psf_id_for_fitting (fst w));
  lift (getitem l i).

(** [self.PSF_list[self.psf_id_for_fitting] = v]. *)
Definition set_current_psf (v : ndarray) : M W unit :=
  l ← getattr "PSF_list" (λ w, PSF_list (fst w));
  i ← getattr "psf_id_for_fitting" (λ w, psf_id_for_fitting (fst w));
  match py_index (length l) i with
  | Some k => modify (λ w, (set_PSF_list (<[k:=v]> l) (fst w), snd w))
  | None => raise IndexError
  end.

(** Lines 259-267: the selected stamp is made square. *)
Definition square_psf (psf : ndarray) : M W unit :=
  print "The PSF is not a box size, will cut it to a box size automatically.";;
  let cut := int_div (Z.of_nat (nrows psf) - Z.of_nat (ncols psf)) 2 in
  (if 0 <? cut then set_current_psf (slice_rows psf cut (- cut))
   else if cut <? 0 then set_current_psf (slice_cols psf (- cut) cut)
   else ret tt);;
  psf ← current_psf;
  modify (λ w, (fst w, idiv psf (np_sum (read (snd w) psf)) (snd w)));;
  psf ← current_psf;
  if negb (nrows psf =? ncols psf)%nat
  then raise (ValueError "PSF shape is not a square.")
  else ret tt.

(** Lines 268-271: the loop over the checklist; the answer is [ct]. *)
Fixpoint report_missing (names : list string) (ct : Z) : M W Z :=
  match names with
  | [] => ret ct
  | name :: rest =>
      w ← get;
      if hasattr (fst w) name then report_missing rest ct
      else print ("The keyword of " +:+ name +:+ " is missing.");;
           report_missing rest (ct + 1)
  end.

Definition checkout : M W unit :=
  psf ← current_psf;
  (if negb (nrows psf =? 0)%nat && negb (nrows psf =? ncols psf)%nat
   then square_psf psf
   else ret tt);;
  ct ← report_missing checklist 0;
  if ct =? 0
  then print "The data_process is ready to go to pass to FittingSpecify!"
  else ret tt.
End Checkout.

(** ** Definitions that follow the words of the specification *)

Section SpecWords.
Context {T : Tools}.

(** The edge-outlier fraction of the stamp of radius [rad] is below 3%. *)
Definition qualifies (self : DataProcess image) (rad : Z) : bool :=
  match edge_percent self rad with
  | Ok percent => Qlt_bool percent (3 # 100)
  | Raise _ => false
  end.

(** "The smallest list entry whose edge-outlier fraction is below 3%, or
    the last list entry if no entry qualifies." *)
Definition spec_radius (self : DataProcess image) (radius_list : list Z) : option Z :=
  match filter (λ r, qualifies self r = true) radius_list with
  | q :: qs => Some (foldr Z.min q qs)
  | [] => last radius_list
  end.

(** The stamp that [generate_target_materials] cuts (lines 123-128), and
    the target position it leaves in the session. *)
Definition stamp_cut (self : DataProcess image) (cut_kernel : option string)
    (radius : Z) : image :=
  match cut_kernel with
  | Some k => fst (cut_center_auto (fov_image self) (pos_of_pixel (target_pos self))
                     (Some k) radius)
  | None => cutout (fov_image self) (target_pos self) radius
  end.

Definition center_cut (self : DataProcess image) (cut_kernel : option string)
    (radius : Z) : Z * Z :=
  match cut_kernel with
  | Some k => snd (cut_center_auto (fov_image self) (pos_of_pixel (target_pos self))
                     (Some k) radius)
  | None => target_pos self
  end.

(** Modelled from the spec: [cutout] and [cut_center_auto] of
    [decomprofile.tools.cutout_tools] are not among the sources.  The
    specification gives their result as a "square array of side
    (2×radius+1)". *)
Definition cutout_contract : Prop :=
  (∀ img c r, shape (cutout img c r) = (Z.to_nat (2 * r + 1), Z.to_nat (2 * r + 1)))
  ∧ (∀ img c k r, shape (fst (cut_center_auto img c k r))
                  = (Z.to_nat (2 * r + 1), Z.to_nat (2 * r + 1))).
End SpecWords.


Section CheckoutWords.
Context {T : Tools}.

(** The value of [self.PSF_list[self.psf_id_for_fitting]], with its place
    in the list, when the expression has one. *)
Definition selected (self : DataProcess ndarray) : option (nat * ndarray) :=
  l ← PSF_list self;
  i ← psf_id_for_fitting self;
  k ← py_index (length l) i;
  psf ← l !! k;
  Some (k, psf).

(** Lines 260-264: the view that takes the place of a stamp that is not
    square. *)
Definition trim (psf : ndarray) : ndarray :=
  let cut := int_div (Z.of_nat (nrows psf) - Z.of_nat (ncols psf)) 2 in
  if 0 <? cut then slice_rows psf cut (- cut)
  else if cut <? 0 then slice_cols psf (- cut) cut
  else psf.

(** "Trim the longer axis symmetrically to match the shorter axis": the
    square in the middle of the stamp. *)
Definition centered_square (psf : ndarray) : ndarray :=
  let m := Nat.min (nrows psf) (ncols psf) in
  NdArray (base psf)
          (row0 psf + (nrows psf - m) / 2) (col0 psf + (ncols psf - m) / 2) m m.

(** What the checklist loop and the last test print for a session. *)
Definition missing_fields (self : DataProcess ndarray) : list string :=
  filter (λ name, hasattr self name = false) checklist.

Definition missing_line (name : string) : string :=
  "The keyword of " +:+ name +:+ " is missing.".

Definition box_line : string :=
  "The PSF is not a box size, will cut it to a box size automatically.".

Definition ready_line : string :=
  "The data_process is ready to go to pass to FittingSpecify!".

Definition report_lines (self : DataProcess ndarray) : list string :=
  map missing_line (missing_fields self)
  ++ (if decide (missing_fields self = []) then [ready_line] else []).

(** Two sessions hold the same value in every attribute but [PSF_list]. *)
Definition same_but_PSF_list (s s' : DataProcess ndarray) : Prop :=
  target_pos s' = target_pos s ∧ exptime s' = exptime s
  ∧ if_plot s' = if_plot s ∧ header s' = header s ∧ deltaPix s' = deltaPix s
  ∧ fov_image s' = fov_image s ∧ fov_noise_map s' = fov_noise_map s
  ∧ psf_id_for_fitting s' = psf_id_for_fitting s ∧ zp s' = zp s
  ∧ bkg_std s' = bkg_std s ∧ noise_map s' = noise_map s
  ∧ apertures s' = apertures s ∧ target_stamp s' = target_stamp s
  ∧ target_mask s' = target_mask s ∧ PSF_pos_list s' = PSF_pos_list s.
End CheckoutWords.


(** ** [profiles_compare] and [plot_overview]

    Both methods only hand arrays to a plotting helper.  The model keeps
    what they hand over. *)

Section Presentation.
Context {T : Tools}.

(** [[self.target_stamp] + self.PSF_list], the profiles to compare. *)
Definition profiles_compare : M (DataProcess image) (list image) :=
  stamp ← getattr "target_stamp" target_stamp;
  psfs ← getattr "PSF_list" PSF_list;
  ret (stamp :: psfs).

(** The image, the target centre and the PSF centres to draw; [None] for
    the centres when the session has no [PSF_pos_list]. *)
Definition plot_overview
  : M (DataProcess image) (option image * (Z * Z) * option (list pos_value)) :=
  self ← get;
  ret (fov_image self, target_pos self, PSF_pos_list self).
End Presentation.

(** ** A runnable instance of the collaborators

    The statements below hold for every instance of [Tools].  To run the
    model on concrete sessions, the collaborators are given simple
    executable stand-ins: a cutout that copies the square of side
    [2*radius+1] around the centre (zero outside the image), centroiding
    that keeps the given centre, a moment fit, a square root that is
    exact on squares of rationals, and numbers written as fractions. *)

Definition sqrt_on_squares (q : Q) : Q :=
  Z.sqrt (Qnum (Qred q)) # Pos.sqrt (Qden (Qred q)).

Definition pixel_at (img : option image) (row col : Z) : Q :=
  match img with
  | Some a =>
      if (0 <=? row) && (0 <=? col)
      then nth (Z.to_nat col) (nth (Z.to_nat row) (pix a) []) 0%Q
      else 0%Q
  | None => 0%Q
  end.

Definition crop (img : option image) (center : Z * Z) (radius : Z) : image :=
  let side := Z.to_nat (2 * radius + 1) in
  Image side side
    (map (λ dy, map (λ dx, pixel_at img (snd center - radius + Z.of_nat dy)
                                        (fst center - radius + Z.of_nat dx))
                    (seq 0 side))
         (seq 0 side)).

Definition pixel_of_pos (c : pos_value) : Z * Z :=
  match c with
  | Pos xy => (truncate (fst xy), truncate (snd xy))
  | PosRows (xy :: _) => (truncate (fst xy), truncate (snd xy))
  | PosRows [] => (0, 0)
  end.

Definition fraction_text (q : Q) : string :=
  (pretty (Qnum q) ++ "/" ++ pretty (Z.pos (Qden q)))%string.

Definition moment_fit (sample : list Q) : Q * Q :=
  let m := np_mean sample in
  (m, sqrt_on_squares (np_mean (map (λ x, (x - m) ^ 2)%Q sample))).

(** The width at half maximum of a row of pixels, counted in pixels. *)
Definition half_max_width (row : list Q) : Q :=
  let top := foldr (λ x m, if Qlt_bool m x then x else m) 0%Q row in
  inject_Z (Z.of_nat (length (filter (λ x, Qle_bool (top / 2) x = true) row))).

Definition central_widths (a : image) (r : Z) : list Q :=
  let mid := (shape0 a / 2)%nat in
  [half_max_width (nth mid (pix a) []);
   half_max_width (map (λ row, nth (shape1 a / 2) row 0%Q) (pix a))].

(** The pixels that exceed their four neighbours, as (x, y) pairs. *)
Definition local_maxima (img : option image) : list (Q * Q) :=
  match img with
  | None => []
  | Some a =>
      flat_map (λ row,
        flat_map (λ col,
          let v := pixel_at img (Z.of_nat row) (Z.of_nat col) in
          if Qlt_bool (pixel_at img (Z.of_nat row - 1) (Z.of_nat col)) v
             && Qlt_bool (pixel_at img (Z.of_nat row + 1) (Z.of_nat col)) v
             && Qlt_bool (pixel_at img (Z.of_nat row) (Z.of_nat col - 1)) v
             && Qlt_bool (pixel_at img (Z.of_nat row) (Z.of_nat col + 1)) v
          then [(inject_Z (Z.of_nat col), inject_Z (Z.of_nat row))]
          else [])
          (seq 0 (shape1 a)))
        (seq 0 (shape0 a))
  end.

#[local] Instance sample_tools : Tools := {|
  aperture := nat;
  np_sqrt := sqrt_on_squares;
  measure_bkg := map_image (λ _, 0%Q);
  read_pixel_scale := λ h, default 3600%Q (h !! "PIXSCALE");
  all_world2pix := λ _ sky origin,
    map (λ p, (fst p * 10 + inject_Z origin, snd p * 10 + inject_Z origin)%Q) sky;
  cutout := crop;
  cut_center_auto := λ img c _ radius,
    (crop img (pixel_of_pos c) radius, pixel_of_pos c);
  fit_data_oneD_gaussian := moment_fit;
  esti_bgkstd := λ a, snd (moment_fit (concat (pix a)));
  detect_obj := λ _, [];
  mask_obj := λ a aps, map (λ _, ones_like a) aps;
  search_local_max := local_maxima;
  measure_FWHM := central_widths;
  np_round := λ l _, l;
  py_round := λ x _, x;
  str_array := λ l, ("[" ++ String.concat " " (map fraction_text l) ++ "]")%string;
  str_float := fraction_text
|}.

(** A 9 x 9 field, flat but for one bright pixel two columns right of the
    centre, with an exposure map of 100 s everywhere. *)
Definition sample_fov : image :=
  Image 9 9
    (map (λ row, map (λ col, if ((row =? 4) && (col =? 6))%nat then 100%Q else 0%Q)
                     (seq 0 9))
         (seq 0 9)).

Definition sample_exposure_map : image :=
  Image 9 9 (replicate 9 (replicate 9 100%Q)).

Definition sample_noise_fov : image :=
  Image 9 9 (replicate 9 (replicate 9 (1 # 2)%Q)).

(** The session [DataProcess(fov_image, target_pos=(4,4), exptime=e,
    fov_noise_map=nm, zp=27.0)]. *)
Definition sample_session (e : option (exptime_t image)) (nm : option image)
  : DataProcess (T := sample_tools) image :=
  mkDataProcess (4, 4) e false None None (Some sample_fov) nm (Some 0) 27%Q
    None None None None None None None.

(** A 7 x 19 field with three point sources on row 3, at columns 3, 9 and
    15.  The first two are two pixels wide at half maximum along both
    axes, the third is three pixels wide. *)
Definition star_field : image :=
  Image 7 19
    [ replicate 19 0%Q;
      replicate 19 0%Q;
      [0; 0; 0; 0; 0; 0; 0; 0; 0; 0; 0; 0; 0; 0; 0; 6; 0; 0; 0]%Q;
      [0; 0; 0; 10; 6; 0; 0; 0; 0; 10; 6; 0; 0; 0; 6; 10; 6; 0; 0]%Q;
      [0; 0; 0; 6; 0; 0; 0; 0; 0; 6; 0; 0; 0; 0; 0; 6; 0; 0; 0]%Q;
      replicate 19 0%Q;
      replicate 19 0%Q ].

(** [DataProcess(star_field, target_pos=(3,3), zp=27.0)], before any
    target stamp was cut. *)
Definition star_session : DataProcess (T := sample_tools) image :=
  mkDataProcess (3, 3) None false None None (Some star_field) None (Some 0) 27%Q
    None None None None None None None.

(** Sessions for [checkout]: the buffers of the store and the views the
    session holds on them.  Buffer 0 carries the PSF stamp, an [r] x [c]
    array of ones; buffers 1 to 3 carry a 3 x 3 target stamp, its noise map
    and its mask. *)
Definition checkout_heap (r c : nat) : heap :=
  <[0%nat := replicate r (replicate c 1%Q)]>
  (<[1%nat := replicate 3 (replicate 3 (5 # 1)%Q)]>
  (<[2%nat := replicate 3 (replicate 3 (1 # 2)%Q)]>
  (<[3%nat := replicate 3 (replicate 3 1%Q)]> ∅))).

Definition checkout_session (psfs : option (list ndarray)) (nm : option ndarray)
  : DataProcess (T := sample_tools) ndarray :=
  mkDataProcess (4, 4) None false None (Some (1 # 10)%Q) None None (Some 0) 27%Q
    (Some (1 # 100)%Q) nm (Some []) (Some (NdArray 1 0 0 3 3))
    (Some (NdArray 3 0 0 3 3)) (Some [Pos (4, 4)%Q]) psfs.

Definition full_session (r c : nat) : DataProcess (T := sample_tools) ndarray :=
  checkout_session (Some [NdArray 0 0 0 r c]) (Some (NdArray 2 0 0 3 3)).


(** The same session with no exposure time given, and a header that
    carries [EXPTIME]. *)
Definition header_session : DataProcess (T := sample_tools) image :=
  mkDataProcess (4, 4) None false (Some (<["EXPTIME" := 100%Q]> ∅)) (Some 3600%Q)
    (Some sample_fov) None (Some 0) 27%Q None None None None None None None.

(** The same session with a header that carries no [EXPTIME]. *)
Definition bare_header_session : DataProcess (T := sample_tools) image :=
  mkDataProcess (4, 4) None false (Some ∅) (Some 3600%Q)
    (Some sample_fov) None (Some 0) 27%Q None None None None None None None.

(** A session on a flat field: no pixel exceeds its neighbours. *)
Definition flat_session : DataProcess (T := sample_tools) image :=
  mkDataProcess (2, 2) None false None None
    (Some (Image 5 5 (replicate 5 (replicate 5 0%Q)))) None (Some 0) 27%Q
    None None None None None None None.

(** * Properties *)

(** ** Tactics for the method monad *)

Ltac unfold_monad :=
  unfold getattr, local, when in *;
  unfold mbind, mret, M_bind, M_ret, res_bind, res_ret,
         bind, ret, raise, get, modify, print, lift in *.

(** Stdlib's [map] and stdpp's [fmap] on lists are the same function. *)
Ltac map_to_fmap :=
  repeat match goal with
         | |- context [map ?f ?l] => change (map f l) with (f <$> l)
         end.

(** ** The constructor *)

Lemma truncate_inject_Z (z : Z) : truncate (inject_Z z) = z.
Proof. unfold truncate; simpl. apply Z.quot_1_r. Qed.

(** [truncate] rounds toward zero: the answer has the sign of the argument,
    is not farther from zero, and is less than one away from it. *)
Lemma truncate_toward_zero (x : Q) :
  (0 <= inject_Z (truncate x) * x)%Q ∧
  (Qabs (inject_Z (truncate x)) <= Qabs x)%Q ∧
  (Qabs x < Qabs (inject_Z (truncate x)) + 1)%Q.
Proof.
  destruct x as [n d]. unfold truncate, Qabs, Qle, Qlt, inject_Z, Qplus, Qmult; simpl.
  pose proof (Z.quot_rem' n (Z.pos d)) as E.
  pose proof (Z.rem_bound_abs n (Z.pos d) ltac:(lia)) as Hb.
  pose proof (Z.rem_sign_mul n (Z.pos d) ltac:(lia)) as Hs.
  set (q := Z.quot n (Z.pos d)) in *. set (r := Z.rem n (Z.pos d)) in *.
  clearbody q r. rewrite ?Z.mul_1_r.
  assert (Hd : 0 < Z.pos d) by lia.
  set (D := Z.pos d) in *. clearbody D.
  assert (Hcases : (0 <= n ∧ 0 <= r ∧ 0 <= q) ∨ (n <= 0 ∧ r <= 0 ∧ q <= 0)).
  { destruct (Z.lt_trichotomy n 0) as [Hn|[Hn|Hn]].
    - right. assert (r <= 0) by nia. split; [lia|]. split; [lia|]. nia.
    - left. subst n. assert (q = 0) by nia. lia.
    - left. assert (0 <= r) by nia. split; [lia|]. split; [lia|]. nia. }
  destruct Hcases as [(? & ? & ?)|(? & ? & ?)].
  - rewrite (Z.abs_eq q), (Z.abs_eq n) by lia. repeat split; nia.
  - rewrite (Z.abs_neq q), (Z.abs_neq n) by lia. repeat split; nia.
Qed.

(** [np.int0] answers for every float array, and for a Python sequence
    exactly when both entries fit a 64-bit integer. *)
Lemma int0_Ok_iff (p : coords) :
  is_Ok (int0 p) = true
  ↔ ∀ xy, p = PySeq xy →
          in_int64 (truncate (fst xy)) = true ∧ in_int64 (truncate (snd xy)) = true.
Proof.
  destruct p as [[x y]|[x y]]; simpl; [|by split].
  unfold int64_of_number.
  destruct (in_int64 (truncate x)) eqn:Ex, (in_int64 (truncate y)) eqn:Ey; simpl.
  - split; [|done]. intros _ ? [= <-]. simpl. by rewrite Ex, Ey.
  - split; [done|]. intros H. destruct (H _ eq_refl) as [_ H2]. simpl in H2. congruence.
  - split; [done|]. intros H. destruct (H _ eq_refl) as [H1 _]. simpl in H1. congruence.
  - split; [done|]. intros H. destruct (H _ eq_refl) as [H1 _]. simpl in H1. congruence.
Qed.

(** What [np.int0] answers, coordinate by coordinate. *)
Lemma int0_Ok (p : coords) (pos : Z * Z) :
  int0 p = Ok pos →
  pos = (int64_of_float (fst (pair_of p)), int64_of_float (snd (pair_of p)))
  ∧ ∀ xy, p = PySeq xy →
          in_int64 (truncate (fst xy)) = true ∧ in_int64 (truncate (snd xy)) = true.
Proof.
  destruct p as [[x y]|[x y]]; simpl.
  - unfold int64_of_number, int64_of_float.
    destruct (in_int64 (truncate x)) eqn:Ex, (in_int64 (truncate y)) eqn:Ey; simpl;
      try done.
    intros [= <-]. split; [done|]. intros ? [= <-]. simpl. by rewrite Ex, Ey.
  - intros [= <-]. by split.
Qed.

(** The ways in which the constructor answers a session. *)
Lemma init_Ok_inv `{T : Tools} (fov : option image) (tp : option coords)
    (pos_type : string) (hd : option fits_header) (ex : option (exptime_t image))
    (nm : option image) (rm pl : bool) (z : option Q)
    (s : DataProcess image) (out : list string) :
  init fov tp pos_type hd ex nm rm pl z = (Ok s, out) →
  ∃ given loc pos img,
    tp = Some given
    ∧ (pos_type = "pixel" ∧ loc = given
       ∨ pos_type = "wcs"
         ∧ ∃ p rest, all_world2pix hd [pair_of given] 1 = p :: rest ∧ loc = FloatArray p)
    ∧ int0 loc = Ok pos
    ∧ match fov with
      | Some i => if rm then binop Qminus i (measure_bkg i) ≫= (λ i', Ok (Some i'))
                  else Ok (Some i)
      | None => Ok None
      end = Ok img
    ∧ s = mkDataProcess pos ex pl hd (read_pixel_scale <$> hd) img nm (Some 0)
            (default 27%Q z) None None None None None None None
    ∧ out = match hd with
            | Some h => if Qeq_bool (read_pixel_scale h) 3600
                        then ["WARNING: pixel size could not read from the header! "]
                        else []
            | None => []
            end
            ++ match z with
               | None => ["Zeropoint value is not provided, use 27.0 to calculate magnitude."]
               | Some _ => []
               end.
Proof.
  unfold init. destruct tp as [given|]; [|done].
  destruct (String.eqb_spec pos_type "pixel") as [->|Hpix].
  - cbv zeta. simpl. destruct (int0 given) as [pos|e] eqn:Epos; [|done].
    intros H. exists given, given, pos.
    destruct fov as [i|]; [destruct rm; [destruct (binop Qminus i (measure_bkg i)) eqn:Eb|]|];
      simpl in H; try done; injection H as <- <-; eexists; destruct hd;
      (split; [done|]); (split; [by left|]); rewrite ?Eb; done.
  - destruct (String.eqb_spec pos_type "wcs") as [->|Hwcs]; [|done].
    destruct (all_world2pix hd [pair_of given] 1) as [|p rest] eqn:Ew; [done|].
    cbv zeta. simpl.
    intros H. exists given, (FloatArray p), (int64_of_float (fst p), int64_of_float (snd p)).
    destruct fov as [i|]; [destruct rm; [destruct (binop Qminus i (measure_bkg i)) eqn:Eb|]|];
      simpl in H; try done; injection H as <- <-; eexists; destruct hd;
      (split; [done|]); (split; [right; split; [done|]; by exists p, rest|]);
      rewrite ?Eb; done.
Qed.

(** C8 (as amended).  For every target position given with position type
    ['pixel'], the constructor, when it answers a session, stores each
    coordinate converted to an integer by truncation toward zero, as long
    as the truncated value fits a 64-bit integer.  A coordinate that does
    not fit is stored as the smallest 64-bit integer, and this happens for
    a float array only: with a Python sequence the constructor does not
    answer. *)
Theorem init_pixel_target_pos `{T : Tools} (fov : option image) (tp : coords)
    (hd : option fits_header) (ex : option (exptime_t image)) (nm : option image)
    (rm pl : bool) (z : option Q) (s : DataProcess image) (out : list string) :
  init fov (Some tp) "pixel" hd ex nm rm pl z = (Ok s, out) →
  (if in_int64 (truncate (fst (pair_of tp)))
   then fst (target_pos s) = truncate (fst (pair_of tp))
   else fst (target_pos s) = int64_min ∧ tp = FloatArray (pair_of tp))
  ∧ (if in_int64 (truncate (snd (pair_of tp)))
     then snd (target_pos s) = truncate (snd (pair_of tp))
     else snd (target_pos s) = int64_min ∧ tp = FloatArray (pair_of tp)).
Proof.
  intros H. apply init_Ok_inv in H as (given & loc & pos & img & [= <-] & Hloc & Hpos & _ & -> & _).
  destruct Hloc as [[_ ->]|[? _]]; [|done].
  apply int0_Ok in Hpos as [-> Hseq]. simpl. unfold int64_of_float.
  destruct tp as [[x y]|[x y]]; simpl in *.
  - destruct (Hseq _ eq_refl) as [Hx Hy]. simpl in Hx, Hy. by rewrite Hx, Hy.
  - destruct (in_int64 (truncate x)), (in_int64 (truncate y)); done.
Qed.

Lemma init_pixel_target_pos_witness :
  (∃ s out, init (T := sample_tools) None (Some (PySeq (7 # 2, -5 # 2)%Q)) "pixel"
              None None None false false None = (Ok s, out)
            ∧ target_pos s = (3, -2))
  ∧ (∃ s out, init (T := sample_tools) None
                (Some (FloatArray (inject_Z 1000000000000000000000000000000, 0%Q))) "pixel"
                None None None false false None = (Ok s, out)
              ∧ target_pos s = (-9223372036854775808, 0)).
Proof.
  split.
  - eexists _, _. split; [reflexivity|].
    destruct (init_pixel_target_pos (T := sample_tools) None (PySeq (7 # 2, -5 # 2)%Q)
                None None None false false None _ _ eq_refl) as [Hx Hy].
    apply injective_projections; [exact Hx|exact Hy].
  - eexists _, _. split; [reflexivity|].
    destruct (init_pixel_target_pos (T := sample_tools) None
                (FloatArray (inject_Z 1000000000000000000000000000000, 0%Q))
                None None None false false None _ _ eq_refl) as [[Hx _] Hy].
    apply injective_projections; [exact Hx|exact Hy].
Defined.

(** X29.  An integer-valued pixel position whose coordinates fit a 64-bit
    integer is stored as it is given, whether it comes as a Python
    sequence or as a float array. *)
Lemma init_pixel_integer_position `{T : Tools} (fov : option image) (tp : coords)
    (a b : Z) (hd : option fits_header) (ex : option (exptime_t image))
    (nm : option image) (rm pl : bool) (z : option Q)
    (s : DataProcess image) (out : list string) :
  pair_of tp = (inject_Z a, inject_Z b) →
  in_int64 a = true → in_int64 b = true →
  init fov (Some tp) "pixel" hd ex nm rm pl z = (Ok s, out) →
  target_pos s = (a, b).
Proof.
  intros Hp Ha Hb H.
  apply init_Ok_inv in H as (given & loc & pos & img & [= <-] & Hloc & Hpos & _ & -> & _).
  destruct Hloc as [[_ ->]|[? _]]; [|done].
  apply int0_Ok in Hpos as [-> _]. simpl. rewrite Hp. simpl.
  unfold int64_of_float. rewrite !truncate_inject_Z, Ha, Hb. done.
Qed.

(** With a Python sequence one coordinate of which does not fit a 64-bit
    integer, the constructor raises [OverflowError]. *)
Lemma init_pixel_overflow `{T : Tools} (fov : option image) (xy : Q * Q)
    (hd : option fits_header) (ex : option (exptime_t image)) (nm : option image)
    (rm pl : bool) (z : option Q) :
  in_int64 (truncate (fst xy)) && in_int64 (truncate (snd xy)) = false →
  init fov (Some (PySeq xy)) "pixel" hd ex nm rm pl z = (Raise OverflowError, []).
Proof.
  intros H. unfold init. simpl. unfold int64_of_number.
  destruct (in_int64 (truncate xy.1)), (in_int64 (truncate xy.2)); done.
Qed.

Example init_pixel_overflow_tuple :
  init (T := sample_tools) None (Some (PySeq (inject_Z 1000000000000000000000000000000, 0%Q))) "pixel"
    None None None false false None = (Raise OverflowError, []).
Proof. by apply init_pixel_overflow. Qed.

(** C8 (as stated) fails.  With the pixel position (1.7, 2.5) the stored
    pair is (1, 2): the first coordinate is 7/10 away from 1.7, farther
    than the half unit a rounded value can be. *)
Lemma init_pixel_not_rounded :
  ∃ s out, init (T := sample_tools) None (Some (PySeq (17 # 10, 5 # 2)%Q)) "pixel"
             None None None false false None = (Ok s, out)
           ∧ target_pos s = (1, 2)
           ∧ (1 # 2 < Qabs ((17 # 10) - inject_Z (fst (target_pos s))))%Q.
Proof.
  eexists _, _. split; [reflexivity|]. split; [reflexivity|]. reflexivity.
Qed.

(** ** [generate_target_materials]: the radius *)

Section Radius.
Context {T : Tools}.
Implicit Type self : DataProcess image.

Lemma last_cons_cons {A} (x : A) (l : list A) :
  last (x :: l) = match last l with Some y => Some y | None => Some x end.
Proof. revert x. induction l as [|y l IH]; intros x; [done|]. simpl in *. by rewrite IH; destruct (last l). Qed.

(** The loop leaves [rad] bound to the first entry, in list order, that
    qualifies; when none does, to the last entry. *)
Lemma radius_loop_first self (l : list Z) (rad : option Z) :
  Forall (λ r, is_Ok (edge_percent self r) = true) l →
  radius_loop self l rad
  = Ok (match filter (λ r, qualifies self r = true) l with
        | q :: _ => Some q
        | [] => match last l with Some x => Some x | None => rad end
        end).
Proof.
  intros Hok. revert rad. induction Hok as [|r rest Hr Hok IH]; intros rad; [done|].
  cbn [radius_loop]. rewrite filter_cons.
  assert (Hq : qualifies self r
               = match edge_percent self r with
                 | Ok p => Qlt_bool p (3 # 100) | Raise _ => false end) by done.
  destruct (edge_percent self r) as [p|e]; [|discriminate Hr].
  destruct (Qlt_bool p (3 # 100)) eqn:Hp.
  - by rewrite decide_True.
  - rewrite decide_False by (rewrite Hq; discriminate). rewrite IH.
    destruct (filter _ rest); [|done].
    rewrite last_cons_cons. by destruct (last rest).
Qed.

Lemma foldr_min_least (x : Z) (l : list Z) :
  Forall (Z.le x) l → foldr Z.min x l = x.
Proof. induction 1 as [|y l Hy _ IH]; simpl; [done|]. rewrite IH. lia. Qed.

(** In a list in increasing order the first entry that satisfies a test
    is the least one that does. *)
Lemma sorted_filter_head (P : Z → Prop) `{∀ x, Decision (P x)} (l : list Z) :
  StronglySorted Z.le l →
  match filter P l with q :: qs => foldr Z.min q qs = q | [] => True end.
Proof.
  induction 1 as [|x l Hs IH Hx]; [done|].
  rewrite filter_cons. destruct (decide (P x)); [|exact IH].
  apply foldr_min_least. apply List.Forall_forall. intros y Hy.
  apply list_elem_of_In, list_elem_of_filter in Hy as [_ Hy].
  apply list_elem_of_In in Hy.
  by eapply List.Forall_forall in Hx.
Qed.

Lemma default_radius_list_sorted : StronglySorted Z.le default_radius_list.
Proof. unfold default_radius_list. repeat (constructor; [|repeat constructor; lia]). constructor. Qed.

(** An empty radius list leaves [rad] unbound. *)
Lemma choose_radius_empty_list self :
  choose_radius self None (Some []) = Raise (UnboundLocalError "rad").
Proof. reflexivity. Qed.

(** C6 (as amended).  With no explicit radius, for every non-empty
    radius list (the given one, or the built-in default) on whose entries
    the edge fraction can be computed, the chosen radius is the first
    entry in list order whose edge-outlier fraction is below 3%, or the
    last entry if none qualifies; when the list is in increasing order
    this is the smallest qualifying entry. *)
Theorem choose_radius_first_qualifying self (radius_list : option (list Z)) :
  default default_radius_list radius_list ≠ [] →
  Forall (λ r, is_Ok (edge_percent self r) = true)
         (default default_radius_list radius_list) →
  ∃ rad, choose_radius self None radius_list = Ok rad
       ∧ Some rad
         = match filter (λ r, qualifies self r = true)
                        (default default_radius_list radius_list) with
           | q :: _ => Some q
           | [] => last (default default_radius_list radius_list)
           end
       ∧ (StronglySorted Z.le (default default_radius_list radius_list) →
          Some rad = spec_radius self (default default_radius_list radius_list)).
Proof.
  set (l := default default_radius_list radius_list).
  intros Hne Hok. unfold choose_radius. fold l.
  rewrite (radius_loop_first _ _ _ Hok). unfold spec_radius.
  pose proof (sorted_filter_head (λ r, qualifies self r = true) l) as Hmin.
  destruct (filter _ l) as [|q qs] eqn:Hf.
  - destruct (last l) as [x|] eqn:Hl.
    + exists x. done.
    + apply last_None in Hl. done.
  - exists q. split; [done|]. split; [done|]. intros Hs. by rewrite (Hmin Hs).
Qed.
End Radius.

Lemma choose_radius_first_qualifying_witness :
  ∃ rad, choose_radius (sample_session None None) None (Some [2; 3; 4]) = Ok rad
       ∧ Some rad = Some 3
       ∧ (StronglySorted Z.le [2; 3; 4] →
          Some rad = spec_radius (sample_session None None) [2; 3; 4]).
Proof.
  apply (choose_radius_first_qualifying (sample_session None None) (Some [2; 3; 4])).
  - discriminate.
  - repeat constructor.
Defined.

(** C6 (as stated) fails.  With the radius list [40, 30], both entries
    qualify; the loop stops at 40, the first, while the smallest qualifying
    entry is 30. *)
Lemma choose_radius_not_smallest :
  choose_radius (sample_session None None) None (Some [40; 30]) = Ok 40
  ∧ qualifies (sample_session None None) 40 = true
  ∧ qualifies (sample_session None None) 30 = true
  ∧ spec_radius (sample_session None None) [40; 30] = Some 30.
Proof. repeat split; vm_compute; reflexivity. Qed.

(** ** [generate_target_materials]: the noise map *)

Section Noise.
Context {T : Tools}.
Implicit Type self : DataProcess image.

Lemma resolve_exptime_frame self self' :
  exptime self' = exptime self → header self' = header self →
  resolve_exptime self' = resolve_exptime self.
Proof. unfold resolve_exptime. by intros -> ->. Qed.

(** C1.  With no FOV-wide noise map and an exposure time that resolves
    to a scalar (given to the constructor, or read from the header),
    [generate_target_materials] stores no noise map: [exptime_stamp] is
    bound only for a 2D exposure map, and reading it raises. *)
Theorem scalar_exptime_unbound self out ck radius rl bs cm ip console r t :
  fov_noise_map self = None →
  choose_radius self radius rl = Ok r →
  resolve_exptime self = Ok (ExpScalar t) →
  ∃ σ, generate_target_materials ck radius rl bs cm ip console (self, out)
       = (Raise (UnboundLocalError "exptime_stamp"), σ)
     ∧ noise_map (fst σ) = noise_map self.
Proof.
  intros Hnm Hr Ht. unfold generate_target_materials, estimate_noise.
  unfold_monad. simpl. rewrite Hr.
  destruct (default (if_plot self) ip), ck, bs; simpl; rewrite Hnm; simpl;
    (erewrite resolve_exptime_frame; [rewrite Ht|reflexivity..]); simpl;
    eexists; (split; [reflexivity|reflexivity]).
Qed.

(** On the path that works, a 2D exposure map: the stored noise map is
    sqrt(|stamp / exptime_stamp| + bkg_std^2), pixel by pixel, where
    [bkg_std] is the attribute of the session: the fresh estimate when no
    value was passed, the value left by an earlier call otherwise. *)
Lemma noise_from_exposure_map self out ck radius rl bs cm ip console r m ratio b :
  fov_noise_map self = None →
  choose_radius self radius rl = Ok r →
  exptime self = Some (ExpMap m) →
  binop Qdiv (stamp_cut self ck r) (cutout (Some m) (center_cut self ck r) r)
    = Ok ratio →
  match bs with
  | None => Some (esti_bgkstd (cutout (fov_image self) (center_cut self ck r) (r * 2)))
  | Some _ => bkg_std self
  end = Some b →
  ∃ res σ, generate_target_materials ck radius rl bs cm ip console (self, out)
           = (res, σ)
         ∧ noise_map (fst σ)
           = Some (map_image (λ x, np_sqrt (Qabs x + b ^ 2)) ratio).
Proof.
  intros Hnm Hr Ht Hratio Hb. unfold generate_target_materials, estimate_noise.
  unfold stamp_cut, center_cut in *.
  unfold_monad. simpl. rewrite Hr.
  destruct (default (if_plot self) ip), ck, bs; simpl; rewrite Hnm; simpl;
    unfold resolve_exptime; simpl; rewrite Ht; simpl; rewrite Hratio; simpl;
    try rewrite Hb; simpl; try (injection Hb as <-);
    (destruct cm; [destruct (select_mask _ _ _)|]); simpl;
    eexists _, _; (split; [reflexivity|reflexivity]).
Qed.

(** C3.  A background standard deviation passed as argument is never
    stored in the session, and the noise formula reads the attribute: on
    a session on which no estimate was made before, the call raises and
    stores no noise map. *)
Theorem explicit_bkg_std_not_used self out ck radius rl b cm ip console r m ratio :
  fov_noise_map self = None →
  bkg_std self = None →
  choose_radius self radius rl = Ok r →
  exptime self = Some (ExpMap m) →
  binop Qdiv (stamp_cut self ck r) (cutout (Some m) (center_cut self ck r) r)
    = Ok ratio →
  ∃ σ, generate_target_materials ck radius rl (Some b) cm ip console (self, out)
       = (Raise (AttributeError "bkg_std"), σ)
     ∧ noise_map (fst σ) = noise_map self
     ∧ bkg_std (fst σ) = None.
Proof.
  intros Hnm Hb Hr Ht Hratio. unfold generate_target_materials, estimate_noise.
  unfold stamp_cut, center_cut in *.
  unfold_monad. simpl. rewrite Hr.
  destruct (default (if_plot self) ip), ck; simpl; rewrite Hnm; simpl;
    unfold resolve_exptime; simpl; rewrite Ht; simpl; rewrite Hratio; simpl;
    rewrite Hb; simpl; eexists; (split; [reflexivity|split; [reflexivity|done]]).
Qed.

(** X28.  When an earlier call left an estimate in the session, that
    estimate enters the noise map, whatever value is passed. *)
Lemma explicit_bkg_std_stale self out ck radius rl b cm ip console r m ratio b0 :
  fov_noise_map self = None →
  bkg_std self = Some b0 →
  choose_radius self radius rl = Ok r →
  exptime self = Some (ExpMap m) →
  binop Qdiv (stamp_cut self ck r) (cutout (Some m) (center_cut self ck r) r)
    = Ok ratio →
  ∃ res σ, generate_target_materials ck radius rl (Some b) cm ip console (self, out)
           = (res, σ)
         ∧ noise_map (fst σ)
           = Some (map_image (λ x, np_sqrt (Qabs x + b0 ^ 2)) ratio).
Proof. intros. by eapply noise_from_exposure_map. Qed.

(** *** Shapes *)

Lemma bdim_same (n : nat) : bdim n n = Some n.
Proof. unfold bdim. by rewrite Nat.eqb_refl. Qed.

Lemma binop_shape (f : Q → Q → Q) (a b c : image) :
  shape a = shape b → binop f a b = Ok c → shape c = shape a.
Proof.
  unfold shape, binop. intros [= H0 H1]. rewrite <- H0, <- H1, !bdim_same.
  by intros [= <-].
Qed.

Lemma binop_inplace_shape (f : Q → Q → Q) (a b c : image) :
  binop_inplace f a b = Ok c → shape c = shape a.
Proof.
  unfold binop_inplace. destruct (binop f a b) as [d|]; [|done].
  destruct (decide _) as [E|]; [|done]. by intros [= <-].
Qed.

(** C9.  After a call of [generate_target_materials] that returns, the
    stored noise map and the stored target stamp have the same shape,
    on both ways to the noise map: cut from the FOV-wide noise map, or
    computed from the stamp and the exposure map.  The cutouts have the
    shape the specification gives them. *)
Theorem noise_map_shape self out ck radius rl bs cm ip console σ :
  cutout_contract →
  generate_target_materials ck radius rl bs cm ip console (self, out) = (Ok tt, σ) →
  ∃ n t, noise_map (fst σ) = Some n ∧ target_stamp (fst σ) = Some t
       ∧ shape n = shape t.
Proof.
  intros [Hcut Hauto]. unfold generate_target_materials, estimate_noise.
  unfold_monad. simpl.
  destruct (choose_radius self radius rl) as [r|]; simpl; [|done].
  assert (Hstamp : ∀ a b (c : image),
             shape a = (Z.to_nat (2 * r + 1), Z.to_nat (2 * r + 1)) →
             shape b = (Z.to_nat (2 * r + 1), Z.to_nat (2 * r + 1)) →
             binop Qdiv a b = Ok c → shape c = shape a).
  { intros a b c Ha Hb. apply binop_shape. congruence. }
  destruct (default (if_plot self) ip), ck as [k|]; simpl.
  all: destruct (fov_noise_map self) as [nm|]; simpl.
  all: try (destruct bs as [bsv|]; simpl;
            (destruct (resolve_exptime _) as [[t|m]|]; simpl; [done| |done]);
            (match goal with |- context [binop Qdiv ?a ?b] =>
               pose proof (Hstamp a b) as Hs;
               destruct (binop Qdiv a b) as [rt|] end; simpl; [|done]);
            (match goal with
             | |- context [bkg_std ?s] => destruct (bkg_std s); simpl; [|done]
             | _ => idtac
             end)).
  all: (destruct cm; [destruct (select_mask _ _ _)|]; simpl; [|done|]).
  all: intros [= <-]; simpl; eexists _, _; (split; [reflexivity|]);
       (split; [reflexivity|]).
  all: try (unfold shape at 1; simpl; fold (shape rt);
            rewrite (Hs rt) by (rewrite ?Hcut, ?Hauto; reflexivity)).
  all: by rewrite ?Hcut, ?Hauto.
Qed.
End Noise.

Lemma sample_tools_contract : cutout_contract (T := sample_tools).
Proof. split; reflexivity. Qed.

Lemma scalar_exptime_unbound_witness :
  ∃ σ, generate_target_materials None (Some 2) None None false None ""
         (sample_session (Some (ExpScalar 100)) None, [])
       = (Raise (UnboundLocalError "exptime_stamp"), σ)
     ∧ noise_map (fst σ) = None.
Proof.
  apply (scalar_exptime_unbound (sample_session (Some (ExpScalar 100)) None) []
           None (Some 2) None None false None "" 2 100);
    reflexivity.
Defined.

Lemma explicit_bkg_std_not_used_witness :
  ∃ σ, generate_target_materials None (Some 2) None (Some (1 # 10)%Q) false None ""
         (sample_session (Some (ExpMap sample_exposure_map)) None, [])
       = (Raise (AttributeError "bkg_std"), σ)
     ∧ noise_map (fst σ) = None
     ∧ bkg_std (fst σ) = None.
Proof.
  eapply (explicit_bkg_std_not_used
            (sample_session (Some (ExpMap sample_exposure_map)) None) []
            None (Some 2) None (1 # 10) false None "" 2 sample_exposure_map);
    reflexivity.
Defined.

Lemma noise_map_shape_witness :
  (∃ n t,
     noise_map (fst (snd (generate_target_materials None (Some 2) None None false None ""
                            (sample_session (Some (ExpMap sample_exposure_map)) None, []))))
       = Some n
     ∧ target_stamp (fst (snd (generate_target_materials None (Some 2) None None false None ""
                            (sample_session (Some (ExpMap sample_exposure_map)) None, []))))
       = Some t
     ∧ shape n = shape t)
  ∧ (∃ n t,
     noise_map (fst (snd (generate_target_materials None None (Some [2; 3]) None false None ""
                            (sample_session None (Some sample_noise_fov), []))))
       = Some n
     ∧ target_stamp (fst (snd (generate_target_materials None None (Some [2; 3]) None false None ""
                            (sample_session None (Some sample_noise_fov), []))))
       = Some t
     ∧ shape n = shape t).
Proof.
  split.
  - apply (noise_map_shape (sample_session (Some (ExpMap sample_exposure_map)) None) []
             None (Some 2) None None false None "" _ sample_tools_contract).
    reflexivity.
  - apply (noise_map_shape (sample_session None (Some sample_noise_fov)) []
             None None (Some [2; 3]) None false None "" _ sample_tools_contract).
    reflexivity.
Defined.


(** ** [find_PSF] *)

Lemma Qlt_bool_true (x y : Q) : Qlt_bool x y = true ↔ (x < y)%Q.
Proof.
  unfold Qlt_bool. rewrite negb_true_iff. split.
  - intros H. apply Qnot_le_lt. intros Hle. apply Qle_bool_iff in Hle. congruence.
  - intros H. destruct (Qle_bool y x) eqn:E; [|done].
    apply Qle_bool_iff in E. by apply Qlt_not_le in H.
Qed.

Lemma mask_select_map {A} (f : A → bool) (l : list A) :
  mask_select l (map f l) = filter (λ x, f x = true) l.
Proof.
  unfold mask_select. induction l as [|x l IH]; [done|].
  rewrite filter_cons. cbn [map zip_with]. rewrite <- IH.
  destruct (f x); [by rewrite decide_True|]. by rewrite decide_False.
Qed.

Section FindPSFProperties.
Context {T : Tools}.
Implicit Type self : DataProcess image.

(** A sample with a finite relative spread above 10% does not pass the
    test of line 199; nor does one whose spread is exactly 10%. *)
Lemma spread_at_least_tenth_rejected (fw : list Q) :
  (1 # 10 <= np_std fw / np_mean fw)%Q → spread_below_tenth fw = false.
Proof.
  intros H. unfold spread_below_tenth. destruct fw; [done|].
  destruct (Qeq_bool _ 0); [done|].
  destruct (Qlt_bool _ _) eqn:E; [|done].
  apply Qlt_bool_true in E. by apply Qlt_not_le in E.
Qed.

(** Every survivor comes from a detected maximum whose FWHM sample
    passed the test. *)
Lemma survivors_passed self (radius : Z) (c : candidate) :
  c ∈ survivors self radius →
  c_loc c ∈ search_local_max (fov_image self)
  ∧ spread_below_tenth (fwhms_at self radius (c_loc c)) = true
  ∧ c_fwhm c = np_mean (fwhms_at self radius (c_loc c)).
Proof.
  unfold survivors, fwhms_at. rewrite list_elem_of_omap.
  intros (loc & Hloc & Hc).
  destruct (spread_below_tenth _) eqn:E; [|done].
  injection Hc as <-. simpl. by rewrite E.
Qed.

(** C7 (as amended).  In the candidate search, a detected maximum whose
    FWHM sample has a relative spread above 10% is rejected; a survivor
    is kept exactly when its mean FWHM is strictly below 1.5 times the
    median over the survivors and, when a target stamp exists, its flux
    is strictly between one half of and ten times the flux of the
    target stamp. *)
Theorem kept_exactly self (radius : Z) :
  (∀ loc, (1 # 10 < np_std (fwhms_at self radius loc)
                    / np_mean (fwhms_at self radius loc))%Q →
          ∀ c, c ∈ survivors self radius → c_loc c ≠ loc)
  ∧ (∀ c, c ∈ kept self radius ↔
          c ∈ survivors self radius
          ∧ (c_fwhm c < np_median (map c_fwhm (survivors self radius)) * (3 # 2))%Q
          ∧ match target_stamp self with
            | Some stamp => (np_sum stamp / 2 < c_flux c)%Q
                            ∧ (c_flux c < np_sum stamp * 10)%Q
            | None => True
            end).
Proof.
  split.
  - intros loc Hspread c Hc Heq. subst loc.
    apply survivors_passed in Hc as (_ & Hpass & _).
    rewrite spread_at_least_tenth_rejected in Hpass; [done|].
    by apply Qlt_le_weak.
  - intros c. unfold kept, select_bool.
    destruct (target_stamp self) as [stamp|];
      rewrite mask_select_map, list_elem_of_filter, ?andb_true_iff, !Qlt_bool_true;
      tauto.
Qed.

(** C4.  With an explicit list of sky positions and position type
    ['wcs'], the comprehension of line 238 runs over the positions
    already stored in the session, not over the ones given: on a session
    that has none yet, the call raises and stores nothing. *)
Theorem find_PSF_wcs_reads_stored_list self out (radius : Z)
    (given : list (Q * Q)) (user_option : bool) (console : string) :
  PSF_pos_list self = None →
  find_PSF radius (Some given) "wcs" user_option console (self, out)
  = (Raise (AttributeError "PSF_pos_list"), (self, out)).
Proof.
  intros H. unfold find_PSF, explicit_positions. unfold_monad. simpl.
  by rewrite H.
Qed.

Lemma map_res_seq_getitem {A B} (f : A → B) (given : list A) (n : nat) :
  (n ≤ length given)%nat →
  map_res (λ i, match getitem given (Z.of_nat i) with
                | Ok p => Ok (f p)
                | Raise e => Raise e
                end) (seq 0 n)
  = Ok (map f (take n given)).
Proof.
  intros Hn.
  assert (G : ∀ k m, (k + m ≤ length given)%nat →
            map_res (λ i, match getitem given (Z.of_nat i) with
                          | Ok p => Ok (f p)
                          | Raise e => Raise e
                          end) (seq k m)
            = Ok (map f (take m (drop k given)))).
  { intros k m. revert k. induction m as [|m IH]; intros k Hk; [done|].
    cbn [seq map_res]. destruct (lookup_lt_is_Some_2 given k ltac:(lia)) as [x Hx].
    unfold getitem, py_index.
    replace (Z.of_nat k <? 0) with false by lia.
    replace ((0 <=? Z.of_nat k) && (Z.of_nat k <? Z.of_nat (length given))) with true
      by (symmetry; apply andb_true_iff; lia).
    rewrite Nat2Z.id, Hx. rewrite IH by lia.
    rewrite (drop_S _ _ _ Hx). done. }
  rewrite (G 0%nat n) by lia. by rewrite drop_0.
Qed.

(** X26.  On a session that already holds [n] positions, the call
    transforms the first [n] of the given positions and keeps, for each,
    the 1 x 2 array that [all_world2pix] answers. *)
Lemma find_PSF_wcs_after_earlier_call self out (radius : Z)
    (given : list (Q * Q)) (old : list pos_value) (user_option : bool)
    (console : string) :
  PSF_pos_list self = Some old →
  (length old ≤ length given)%nat →
  ∃ σ, find_PSF radius (Some given) "wcs" user_option console (self, out)
       = (Ok tt, σ)
     ∧ PSF_pos_list (fst σ)
       = Some (map (λ p, PosRows (all_world2pix (header self) [p] 1))
                   (take (length old) given)).
Proof.
  intros H Hlen. unfold find_PSF, explicit_positions. unfold_monad. simpl.
  rewrite H. simpl.
  rewrite (map_res_seq_getitem (λ p, PosRows (all_world2pix (header self) [p] 1)))
    by done.
  simpl. eexists. split; reflexivity.
Qed.
End FindPSFProperties.

Lemma find_PSF_wcs_reads_stored_list_witness :
  find_PSF 2 (Some [(150 # 1, 2 # 1)%Q]) "wcs" false "" (star_session, [])
  = (Raise (AttributeError "PSF_pos_list"), (star_session, [])).
Proof.
  apply (find_PSF_wcs_reads_stored_list star_session [] 2 [(150 # 1, 2 # 1)%Q] false "").
  reflexivity.
Defined.

(** C7 (as stated) fails.  On the star field the survivors have mean FWHM
    2, 2 and 3; the median is 2.  The third source has a mean FWHM of
    exactly 1.5 times the median, and it is not kept. *)
Lemma kept_excludes_one_and_a_half_median :
  Forall2 Qeq (map c_fwhm (survivors star_session 2)) [2; 2; 3]%Q
  ∧ (np_median (map c_fwhm (survivors star_session 2)) == 2)%Q
  ∧ ∃ c, c ∈ survivors star_session 2
       ∧ (c_fwhm c <= np_median (map c_fwhm (survivors star_session 2)) * (3 # 2))%Q
       ∧ c ∉ kept star_session 2.
Proof.
  split; [repeat constructor|]. split; [reflexivity|].
  exists (Candidate (15, 3)%Q (6 # 2) 34).
  split; [vm_compute; repeat constructor|].
  split; [vm_compute; discriminate|].
  vm_compute. intros H. repeat (apply elem_of_cons in H as [H|H]; [discriminate H|]).
  by apply elem_of_nil in H.
Qed.

(** ** The array store *)

Lemma take_drop_imap {A B} (F : nat → A → B) (f : A → B) (n k : nat) (l : list A) :
  (∀ i x, (i < n)%nat → l !! (k + i)%nat = Some x → F (k + i)%nat x = f x) →
  take n (drop k (imap F l)) = f <$> take n (drop k l).
Proof.
  intros HF. apply list_eq. intros i.
  rewrite list_lookup_fmap. destruct (decide (i < n)%nat) as [Hi|Hi].
  - rewrite !lookup_take_lt, !lookup_drop, list_lookup_imap by done.
    destruct (l !! (k + i)%nat) as [x|] eqn:E; [|done]. simpl. f_equal. by apply HF.
  - by rewrite !lookup_take_ge by lia.
Qed.

(** Reading a window after an update of that window gives the updated
    pixels. *)
Lemma window_update_window (f : Q → Q) (a : ndarray) (buf : list (list Q)) :
  window a (update_window f a buf) = map (map f) (window a buf).
Proof.
  unfold window, update_window. map_to_fmap.
  rewrite (take_drop_imap _
             (λ r, imap (λ j x, if ((col0 a <=? j) && (j <? col0 a + ncols a))%nat
                                then f x else x) r)).
  - rewrite <- !list_fmap_compose. apply list_fmap_ext. intros _ r _. simpl.
    apply take_drop_imap. intros j x Hj _.
    replace ((col0 a <=? col0 a + j) && (col0 a + j <? col0 a + ncols a))%nat with true;
      [done|]. symmetry. apply andb_true_iff. split; [apply Nat.leb_le|apply Nat.ltb_lt]; lia.
  - intros i r Hi _. apply imap_ext. intros j x _. unfold in_window.
    replace ((row0 a <=? row0 a + i) && (row0 a + i <? row0 a + nrows a))%nat with true;
      [done|]. symmetry. apply andb_true_iff. split; [apply Nat.leb_le|apply Nat.ltb_lt]; lia.
Qed.

(** [a /= d] as seen through [a]. *)
Lemma read_idiv (h : heap) (a : ndarray) (d : Q) :
  read (idiv a d h) a = map_image (λ x, x / d)%Q (read h a).
Proof.
  unfold read, idiv, map_image. simpl. f_equal.
  rewrite lookup_alter_eq. destruct (h !! base a) as [buf|]; simpl.
  - apply window_update_window.
  - unfold window. by rewrite drop_nil, take_nil.
Qed.


Lemma Qsum_app (l1 l2 : list Q) : (Qsum (l1 ++ l2) == Qsum l1 + Qsum l2)%Q.
Proof.
  induction l1 as [|x l1 IH]; simpl; [ring|]. rewrite IH. ring.
Qed.

Lemma Qsum_map_div (d : Q) (l : list Q) :
  (Qsum (map (λ x, x / d) l) == Qsum l / d)%Q.
Proof.
  induction l as [|x l IH]; simpl.
  - unfold Qdiv. ring.
  - rewrite IH. unfold Qdiv. ring.
Qed.

Lemma np_sum_map_div (d : Q) (a : image) :
  (np_sum (map_image (λ x, x / d) a) == np_sum a / d)%Q.
Proof.
  unfold np_sum, map_image. simpl. rewrite <- concat_map. apply Qsum_map_div.
Qed.

(** Dividing an array by its own sum makes it sum to one, when that sum
    is not zero. *)
Lemma np_sum_normalized (a : image) :
  ¬ (np_sum a == 0)%Q → (np_sum (map_image (λ x, x / np_sum a) a) == 1)%Q.
Proof.
  intros Hs. rewrite np_sum_map_div. by field.
Qed.

(** ** [checkout] *)

Section CheckoutProperties.
Context {T : Tools}.
Implicit Type s : DataProcess ndarray.
Implicit Type h : heap.

Lemma hasattr_set_PSF_list s (l l' : list ndarray) (name : string) :
  PSF_list s = Some l → hasattr (set_PSF_list l' s) name = hasattr s name.
Proof.
  intros H. unfold hasattr. simpl. rewrite H.
  repeat (destruct (String.eqb name _); [done|]). done.
Qed.

Lemma missing_fields_set_PSF_list s (l l' : list ndarray) :
  PSF_list s = Some l → missing_fields (set_PSF_list l' s) = missing_fields s.
Proof.
  intros H. unfold missing_fields. apply list_filter_iff. intros name.
  by rewrite (hasattr_set_PSF_list _ _ _ _ H).
Qed.

(** The loop over the checklist prints one line per absent field, in the
    order of the checklist, counts them, and raises nothing. *)
Lemma report_missing_run (names : list string) (ct : Z) s h (out : list string) :
  report_missing names ct ((s, h), out)
  = (Ok (ct + Z.of_nat (length (filter (λ name, hasattr s name = false) names))),
     ((s, h), out ++ map missing_line (filter (λ name, hasattr s name = false) names))).
Proof.
  revert ct out. induction names as [|name names IH]; intros ct out.
  - simpl. unfold_monad. by rewrite Z.add_0_r, app_nil_r.
  - cbn [report_missing]. unfold_monad. simpl. rewrite filter_cons.
    destruct (hasattr s name) eqn:E.
    + rewrite decide_False by done. apply IH.
    + rewrite decide_True by done. rewrite IH. simpl.
      rewrite <- app_assoc. simpl. rewrite Nat2Z.inj_succ.
      by replace (ct + 1 + Z.of_nat (length (filter (λ n, hasattr s n = false) names)))
        with (ct + Z.succ (Z.of_nat (length (filter (λ n, hasattr s n = false) names))))
        by lia.
Qed.

(** Lines 268-273 as a whole. *)
Lemma report_run s h (out : list string) :
  (ct ← report_missing checklist 0;
   if ct =? 0 then print ready_line else ret tt) ((s, h), out)
  = (Ok tt, ((s, h), out ++ report_lines s)).
Proof.
  unfold mbind, M_bind, bind. rewrite report_missing_run.
  unfold report_lines, missing_fields.
  destruct (filter _ checklist) as [|x l] eqn:E.
  - rewrite decide_True by done. simpl. unfold print. simpl. by rewrite app_nil_r.
  - rewrite decide_False by done. rewrite app_nil_r.
    replace (0 + Z.of_nat (length (x :: l)) =? 0) with false; [done|].
    symmetry. apply Z.eqb_neq. simpl. lia.
Qed.

Lemma same_but_PSF_list_refl s : same_but_PSF_list s s.
Proof. by repeat split. Qed.

Lemma same_but_PSF_list_set s (l : list ndarray) :
  same_but_PSF_list s (set_PSF_list l s).
Proof. by repeat split. Qed.

Lemma selected_Some s (k : nat) (psf : ndarray) :
  selected s = Some (k, psf) →
  ∃ l i, PSF_list s = Some l ∧ psf_id_for_fitting s = Some i
       ∧ py_index (length l) i = Some k ∧ l !! k = Some psf.
Proof.
  unfold selected. intros H.
  destruct (PSF_list s) as [l|]; [|done].
  destruct (psf_id_for_fitting s) as [i|]; [|done]. simpl in H.
  destruct (py_index (length l) i) as [k'|] eqn:Hk; [|done]. simpl in H.
  destruct (l !! k') as [p|] eqn:E; [|done]. simpl in H.
  injection H as <- <-. by exists l, i.
Qed.

Lemma current_psf_selected s h (out : list string) (k : nat) (psf : ndarray) :
  selected s = Some (k, psf) →
  current_psf ((s, h), out) = (Ok psf, ((s, h), out)).
Proof.
  intros (l & i & Hl & Hi & Hk & Hp)%selected_Some.
  unfold current_psf, getitem. unfold_monad. simpl.
  rewrite Hl; simpl. rewrite Hi; simpl. by rewrite Hk, Hp.
Qed.

(** When the expression [self.PSF_list[self.psf_id_for_fitting]] has no
    value, evaluating it raises, and nothing was done before. *)
Lemma current_psf_not_selected s h (out : list string) :
  selected s = None →
  ∃ e, current_psf ((s, h), out) = (Raise e, ((s, h), out))
     ∧ (PSF_list s = None → e = AttributeError "PSF_list").
Proof.
  unfold selected, current_psf, getitem. unfold_monad. simpl.
  destruct (PSF_list s) as [l|]; [|by eexists]. simpl.
  destruct (psf_id_for_fitting s) as [i|]; [|by eexists]. simpl.
  destruct (py_index (length l) i) as [k|]; [|by eexists]. simpl.
  destruct (l !! k); [done|by eexists].
Qed.

Lemma set_current_psf_selected s h (out : list string) (k : nat)
    (psf v : ndarray) (l : list ndarray) :
  selected s = Some (k, psf) → PSF_list s = Some l →
  set_current_psf v ((s, h), out)
  = (Ok tt, ((set_PSF_list (<[k:=v]> l) s, h), out))
  ∧ selected (set_PSF_list (<[k:=v]> l) s) = Some (k, v).
Proof.
  intros (l' & i & Hl & Hi & Hk & Hp)%selected_Some Hl'.
  assert (l' = l) as -> by congruence.
  split.
  - unfold set_current_psf. unfold_monad. simpl.
    rewrite Hl; simpl. rewrite Hi; simpl. by rewrite Hk.
  - unfold selected. simpl. rewrite Hi; simpl. rewrite length_insert, Hk; simpl.
    rewrite list_lookup_insert_eq; [done|]. by eapply lookup_lt_Some.
Qed.

(** *** The trimmed view *)

Lemma quot2_even (q : Z) : Z.quot (2 * q) 2 = q.
Proof. rewrite Z.mul_comm. by apply Z.quot_mul. Qed.

Lemma quot2_odd (q : Z) : Z.quot (2 * q + 1) 2 = if q <? 0 then q + 1 else q.
Proof.
  pose proof (Z.quot_rem' (2 * q + 1) 2) as E.
  pose proof (Z.rem_bound_abs (2 * q + 1) 2 ltac:(lia)) as Hb.
  pose proof (Z.rem_sign_mul (2 * q + 1) 2 ltac:(lia)) as Hs.
  destruct (Z.ltb_spec q 0); nia.
Qed.

Lemma slice_bounds_cut (n : nat) (cut : Z) :
  0 < cut → 2 * cut ≤ Z.of_nat n →
  slice_bounds n cut (- cut) = (Z.to_nat cut, (n - 2 * Z.to_nat cut)%nat).
Proof.
  intros H0 H1. unfold slice_bounds.
  destruct (Z.ltb_spec cut 0), (Z.ltb_spec (- cut) 0); f_equal; lia.
Qed.

Lemma slice_bounds_cut_neg (n : nat) (cut : Z) :
  cut < 0 → 2 * - cut ≤ Z.of_nat n →
  slice_bounds n (- cut) cut = (Z.to_nat (- cut), (n - 2 * Z.to_nat (- cut))%nat).
Proof.
  intros H0 H1. rewrite <- (slice_bounds_cut n (- cut)) by lia.
  by rewrite Z.opp_involutive.
Qed.

Lemma centered_square_of_cut (b r0 c0 nr nc dr dc : nat) :
  (nr = nc + 2 * dr)%nat ∧ dc = 0%nat ∨ (nc = nr + 2 * dc)%nat ∧ dr = 0%nat →
  centered_square (NdArray b r0 c0 nr nc)
  = NdArray b (r0 + dr) (c0 + dc) (nr - 2 * dr) (nc - 2 * dc).
Proof.
  intros H. unfold centered_square. cbn [nrows ncols row0 col0 base].
  assert (Hr : ((nr - nr `min` nc) `div` 2 = dr)%nat).
  { destruct H as [[-> ->]|[-> ->]].
    - replace (nc + 2 * dr - (nc + 2 * dr) `min` nc)%nat with (dr * 2)%nat by lia.
      by rewrite Nat.div_mul.
    - by replace (nr - nr `min` (nr + 2 * dc))%nat with 0%nat by lia. }
  assert (Hc : ((nc - nr `min` nc) `div` 2 = dc)%nat).
  { destruct H as [[-> ->]|[-> ->]].
    - by replace (nc - (nc + 2 * dr) `min` nc)%nat with 0%nat by lia.
    - replace (nr + 2 * dc - nr `min` (nr + 2 * dc))%nat with (dc * 2)%nat by lia.
      by rewrite Nat.div_mul. }
  rewrite Hr, Hc. f_equal; lia.
Qed.

(** When the two axis lengths differ by an even number, the view of lines
    260-264 is the square in the middle of the stamp. *)
Lemma trim_even (psf : ndarray) :
  Z.even (Z.of_nat (nrows psf) - Z.of_nat (ncols psf)) = true →
  trim psf = centered_square psf.
Proof.
  intros [q Hq]%Z.even_spec. unfold trim, int_div.
  rewrite Hq, quot2_even. destruct psf as [b r0 c0 nr nc];
    cbn [nrows ncols row0 col0 base] in *.
  destruct (Z.ltb_spec 0 q) as [Hpos|Hle].
  - unfold slice_rows; cbn [nrows ncols row0 col0 base].
    rewrite slice_bounds_cut by lia. cbn [fst snd].
    rewrite (centered_square_of_cut _ _ _ _ _ (Z.to_nat q) 0) by lia.
    f_equal; lia.
  - destruct (Z.ltb_spec q 0) as [Hneg|Hge].
    + unfold slice_cols; cbn [nrows ncols row0 col0 base].
      rewrite slice_bounds_cut_neg by lia. cbn [fst snd].
      rewrite (centered_square_of_cut _ _ _ _ _ 0 (Z.to_nat (- q))) by lia.
      f_equal; lia.
    + rewrite (centered_square_of_cut _ _ _ _ _ 0 0) by lia. f_equal; lia.
Qed.

(** When they differ by an odd number, the view is not square. *)
Lemma trim_odd (psf : ndarray) :
  Z.even (Z.of_nat (nrows psf) - Z.of_nat (ncols psf)) = false →
  nrows (trim psf) ≠ ncols (trim psf).
Proof.
  intros Hodd. assert (Ho : Z.odd (Z.of_nat (nrows psf) - Z.of_nat (ncols psf)) = true)
    by (by rewrite <- Z.negb_even, Hodd).
  apply Z.odd_spec in Ho as [q Hq]. unfold trim, int_div.
  rewrite Hq, quot2_odd. destruct psf as [b r0 c0 nr nc]; cbn [nrows ncols row0 col0 base] in *.
  destruct (Z.ltb_spec q 0) as [Hneg|Hge].
  - destruct (Z.ltb_spec 0 (q + 1)); [lia|].
    destruct (Z.ltb_spec (q + 1) 0) as [Hlt|Hz].
    + unfold slice_cols; cbn [nrows ncols row0 col0 base].
      rewrite slice_bounds_cut_neg by lia. cbn [fst snd nrows ncols]. lia.
    + cbn [nrows ncols]. lia.
  - destruct (Z.ltb_spec 0 q) as [Hpos|Hz].
    + unfold slice_rows; cbn [nrows ncols row0 col0 base]. rewrite slice_bounds_cut by lia. cbn [fst snd nrows ncols]. lia.
    + destruct (Z.ltb_spec q 0); [lia|]. cbn [nrows ncols]. lia.
Qed.




(** *** What a call of [checkout] does, case by case *)

Lemma checkout_not_selected s h (out : list string) :
  selected s = None →
  ∃ e, checkout ((s, h), out) = (Raise e, ((s, h), out))
     ∧ (PSF_list s = None → e = AttributeError "PSF_list").
Proof.
  intros Hsel. destruct (current_psf_not_selected s h out Hsel) as (e & He & Hattr).
  exists e. split; [|done]. unfold checkout, mbind, M_bind, bind. by rewrite He.
Qed.

Lemma checkout_square s h (out : list string) (k : nat) (psf : ndarray) :
  selected s = Some (k, psf) →
  nrows psf = 0%nat ∨ nrows psf = ncols psf →
  checkout ((s, h), out) = (Ok tt, ((s, h), out ++ report_lines s)).
Proof.
  intros Hsel Hsq. unfold checkout. unfold mbind at 1, M_bind at 1, bind at 1.
  rewrite (current_psf_selected _ _ _ _ _ Hsel).
  replace (negb (nrows psf =? 0)%nat && negb (nrows psf =? ncols psf)%nat) with false.
  - unfold mbind at 1, M_bind at 1, bind at 1. unfold ret at 1. apply report_run.
  - symmetry. apply andb_false_iff. rewrite !negb_false_iff, !Nat.eqb_eq. tauto.
Qed.

(** Lines 260-264. *)
Lemma trim_step s h (out : list string) (k : nat) (psf : ndarray) (l : list ndarray) :
  selected s = Some (k, psf) → PSF_list s = Some l →
  ∃ s', (let cut := int_div (Z.of_nat (nrows psf) - Z.of_nat (ncols psf)) 2 in
         if 0 <? cut then set_current_psf (slice_rows psf cut (- cut))
         else if cut <? 0 then set_current_psf (slice_cols psf (- cut) cut)
         else ret tt) ((s, h), out)
        = (Ok tt, ((s', h), out))
      ∧ selected s' = Some (k, trim psf)
      ∧ PSF_list s' = Some (<[k:=trim psf]> l)
      ∧ same_but_PSF_list s s'
      ∧ report_lines s' = report_lines s.
Proof.
  intros Hsel Hl. unfold trim. cbv zeta.
  set (cut := int_div _ _). clearbody cut.
  destruct (0 <? cut); [|destruct (cut <? 0)].
  - destruct (set_current_psf_selected s h out k psf (slice_rows psf cut (- cut)) l
                Hsel Hl) as [Hrun Hsel'].
    eexists. split; [exact Hrun|]. split; [exact Hsel'|]. split; [done|].
    split; [apply same_but_PSF_list_set|].
    unfold report_lines. by rewrite (missing_fields_set_PSF_list _ _ _ Hl).
  - destruct (set_current_psf_selected s h out k psf (slice_cols psf (- cut) cut) l
                Hsel Hl) as [Hrun Hsel'].
    eexists. split; [exact Hrun|]. split; [exact Hsel'|]. split; [done|].
    split; [apply same_but_PSF_list_set|].
    unfold report_lines. by rewrite (missing_fields_set_PSF_list _ _ _ Hl).
  - exists s. split; [done|]. split; [done|]. split.
    + rewrite Hl. f_equal. symmetry. apply list_insert_id.
      by destruct (selected_Some _ _ _ Hsel) as (l' & i & Hl' & _ & _ & Hp);
        assert (l' = l) as -> by congruence.
    + split; [apply same_but_PSF_list_refl|done].
Qed.

(** Lines 265-267. *)
Lemma normalize_step s h (out : list string) (k : nat) (p : ndarray) :
  selected s = Some (k, p) →
  (psf ← current_psf;
   modify (λ w : DataProcess ndarray * heap,
             (fst w, idiv psf (np_sum (read (snd w) psf)) (snd w)));;
   psf ← current_psf;
   if negb (nrows psf =? ncols psf)%nat
   then raise (ValueError "PSF shape is not a square.")
   else ret tt) ((s, h), out)
  = if (nrows p =? ncols p)%nat
    then (Ok tt, ((s, idiv p (np_sum (read h p)) h), out))
    else (Raise (ValueError "PSF shape is not a square."),
          ((s, idiv p (np_sum (read h p)) h), out)).
Proof.
  intros Hsel. unfold mbind at 1, M_bind at 1, bind at 1.
  rewrite (current_psf_selected _ _ _ _ _ Hsel).
  unfold mbind at 1, M_bind at 1, bind at 1. unfold modify at 1. cbn [fst snd].
  unfold mbind at 1, M_bind at 1, bind at 1.
  rewrite (current_psf_selected _ _ _ _ _ Hsel).
  by destruct (nrows p =? ncols p)%nat.
Qed.

Lemma checkout_not_square s h (out : list string) (k : nat) (psf : ndarray) :
  selected s = Some (k, psf) →
  nrows psf ≠ 0%nat → nrows psf ≠ ncols psf →
  ∃ s' l, PSF_list s = Some l
        ∧ PSF_list s' = Some (<[k:=trim psf]> l)
        ∧ same_but_PSF_list s s'
        ∧ checkout ((s, h), out)
          = if (nrows (trim psf) =? ncols (trim psf))%nat
            then (Ok tt, ((s', idiv (trim psf) (np_sum (read h (trim psf))) h),
                          (out ++ [box_line]) ++ report_lines s))
            else (Raise (ValueError "PSF shape is not a square."),
                  ((s', idiv (trim psf) (np_sum (read h (trim psf))) h),
                   out ++ [box_line])).
Proof.
  intros Hsel H0 Hne.
  destruct (selected_Some _ _ _ Hsel) as (l & i & Hl & Hi & Hk & Hp).
  destruct (trim_step s h (out ++ [box_line]) k psf l Hsel Hl)
    as (s' & Hrun & Hsel' & Hl' & Hsame & Hrep).
  exists s', l. split; [done|]. split; [done|]. split; [done|].
  unfold checkout. unfold mbind at 1, M_bind at 1, bind at 1.
  rewrite (current_psf_selected _ _ _ _ _ Hsel).
  replace (negb (nrows psf =? 0)%nat && negb (nrows psf =? ncols psf)%nat) with true
    by (symmetry; apply andb_true_iff; rewrite !negb_true_iff, !Nat.eqb_neq; tauto).
  unfold mbind at 1, M_bind at 1, bind at 1.
  unfold square_psf. unfold mbind at 1, M_bind at 1, bind at 1.
  unfold print at 1. cbn [fst snd].
  unfold mbind at 1, M_bind at 1, bind at 1.
  cbv zeta in Hrun. unfold box_line in Hrun. rewrite Hrun.
  rewrite (normalize_step _ _ _ _ _ Hsel').
  destruct (nrows (trim psf) =? ncols (trim psf))%nat; [|done].
  rewrite <- Hrep. apply report_run.
Qed.


(** C2.  [checkout] reads [self.PSF_list[self.psf_id_for_fitting]] before
    it walks the checklist: on a session without [PSF_list] it raises, and
    reports nothing, whatever the other fields are. *)
Theorem checkout_without_PSF_list s h (out : list string) :
  PSF_list s = None →
  checkout ((s, h), out) = (Raise (AttributeError "PSF_list"), ((s, h), out)).
Proof.
  intros H. destruct (checkout_not_selected s h out) as (e & He & Hattr).
  - unfold selected. by rewrite H.
  - by rewrite He, (Hattr H).
Qed.

(** Where the selected stamp exists and is square (or empty), [checkout]
    raises nothing: it prints one line for each absent field of the
    checklist, in order, and the readiness line when none is absent. *)
Lemma checkout_reports_missing s h (out : list string) (k : nat) (psf : ndarray) :
  selected s = Some (k, psf) →
  nrows psf = 0%nat ∨ nrows psf = ncols psf →
  checkout ((s, h), out)
  = (Ok tt, ((s, h),
             out ++ map missing_line (missing_fields s)
                 ++ (if decide (missing_fields s = []) then [ready_line] else []))).
Proof. apply checkout_square. Qed.

(** C5 (as amended).  When the selected PSF stamp has a first axis that is
    not empty and is not square: if the axis lengths differ by an even
    number, the entry becomes the view on the square in the middle of the
    stamp (the longer axis trimmed by the same amount on both sides), its
    pixels are divided in place by their sum, so that they sum to one when
    that sum is not zero, and the call returns; if the lengths differ by
    an odd number, the call raises [ValueError]. *)
Theorem checkout_makes_psf_square s h (out : list string) (k : nat) (psf : ndarray) :
  selected s = Some (k, psf) →
  nrows psf ≠ 0%nat → nrows psf ≠ ncols psf →
  ∃ s' h' out' l,
    snd (checkout ((s, h), out)) = ((s', h'), out')
    ∧ PSF_list s = Some l
    ∧ (Z.even (Z.of_nat (nrows psf) - Z.of_nat (ncols psf)) = true →
       fst (checkout ((s, h), out)) = Ok tt
       ∧ PSF_list s' = Some (<[k:=centered_square psf]> l)
       ∧ shape (read h' (centered_square psf))
         = (Nat.min (nrows psf) (ncols psf), Nat.min (nrows psf) (ncols psf))
       ∧ read h' (centered_square psf)
         = map_image (λ x, x / np_sum (read h (centered_square psf)))%Q
                     (read h (centered_square psf))
       ∧ (¬ (np_sum (read h (centered_square psf)) == 0)%Q →
          (np_sum (read h' (centered_square psf)) == 1)%Q))
    ∧ (Z.even (Z.of_nat (nrows psf) - Z.of_nat (ncols psf)) = false →
       fst (checkout ((s, h), out)) = Raise (ValueError "PSF shape is not a square.")).
Proof.
  intros Hsel H0 Hne.
  destruct (checkout_not_square s h out k psf Hsel H0 Hne)
    as (s' & l & Hl & Hl' & _ & Hrun).
  exists s', (idiv (trim psf) (np_sum (read h (trim psf))) h).
  destruct (Z.even (Z.of_nat (nrows psf) - Z.of_nat (ncols psf))) eqn:Heven.
  - rewrite (trim_even _ Heven) in *.
    replace (nrows (centered_square psf) =? ncols (centered_square psf))%nat with true
      in Hrun by (symmetry; apply Nat.eqb_refl).
    eexists _, l. rewrite Hrun. split; [reflexivity|]. split; [done|].
    split; [|done]. intros _. split; [done|]. split; [done|]. split; [done|].
    rewrite read_idiv. split; [done|]. apply np_sum_normalized.
  - pose proof (trim_odd _ Heven) as Hodd. apply Nat.eqb_neq in Hodd.
    rewrite Hodd in Hrun.
    eexists _, l. rewrite Hrun. split; [reflexivity|]. split; [done|].
    split; [done|]. done.
Qed.

End CheckoutProperties.

Lemma checkout_without_PSF_list_witness :
  checkout ((checkout_session None (Some (NdArray 2 0 0 3 3)), checkout_heap 3 3), [])
  = (Raise (AttributeError "PSF_list"),
     ((checkout_session None (Some (NdArray 2 0 0 3 3)), checkout_heap 3 3), [])).
Proof.
  apply (checkout_without_PSF_list
           (checkout_session None (Some (NdArray 2 0 0 3 3))) (checkout_heap 3 3) []).
  reflexivity.
Defined.

(** A session with every field of the checklist and a square stamp is
    ready; one that lacks the noise map gets exactly one line, naming
    [noise_map]. *)
Example checkout_ready :
  checkout ((full_session 3 3, checkout_heap 3 3), [])
  = (Ok tt, ((full_session 3 3, checkout_heap 3 3), [ready_line])).
Proof.
  by rewrite (checkout_reports_missing _ _ _ 0%nat (NdArray 0 0 0 3 3)); [|done|right].
Qed.

Example checkout_missing_noise_map :
  checkout ((checkout_session (Some [NdArray 0 0 0 3 3]) None, checkout_heap 3 3), [])
  = (Ok tt, ((checkout_session (Some [NdArray 0 0 0 3 3]) None, checkout_heap 3 3),
             ["The keyword of noise_map is missing."])).
Proof.
  by rewrite (checkout_reports_missing _ _ _ 0%nat (NdArray 0 0 0 3 3)); [|done|right].
Qed.

(** The stamp of shape (21, 19) becomes the view of shape (19, 19) one row
    down, and sums to one. *)
Lemma checkout_makes_psf_square_witness :
  fst (checkout ((full_session 21 19, checkout_heap 21 19), [])) = Ok tt
  ∧ PSF_list (fst (fst (snd (checkout ((full_session 21 19, checkout_heap 21 19), [])))))
    = Some [NdArray 0 1 0 19 19]
  ∧ (np_sum (read (snd (fst (snd (checkout ((full_session 21 19,
                                             checkout_heap 21 19), [])))))
                  (NdArray 0 1 0 19 19)) == 1)%Q.
Proof.
  destruct (checkout_makes_psf_square (full_session 21 19) (checkout_heap 21 19) []
              0 (NdArray 0 0 0 21 19) eq_refl
              ltac:(discriminate) ltac:(discriminate))
    as (s' & h' & out' & l & Hsnd & Hl & Heven & _).
  destruct (Heven eq_refl) as (Hok & Hlist & _ & _ & Hsum).
  injection Hl as <-. rewrite Hsnd. cbn [fst snd].
  split; [exact Hok|]. split; [exact Hlist|].
  apply Hsum. intros H. vm_compute in H. discriminate H.
Defined.

(** The stamp of shape (20, 19) cannot be trimmed evenly. *)
Example checkout_20_19 :
  fst (checkout ((full_session 20 19, checkout_heap 20 19), []))
  = Raise (ValueError "PSF shape is not a square.").
Proof.
  destruct (checkout_not_square (full_session 20 19) (checkout_heap 20 19) []
              0 (NdArray 0 0 0 20 19) eq_refl
              ltac:(discriminate) ltac:(discriminate))
    as (s' & l & _ & _ & _ & ->).
  reflexivity.
Qed.

(** C5 (as stated) fails at the ends of its range.  A stamp of shape
    (0, 2) is not square, and an even trim would make it (0, 0); the guard
    on its length skips it: nothing is trimmed, nothing is raised.  A stamp
    of shape (2, 0) is trimmed to (0, 0) and passes, with a pixel sum of
    zero. *)
Lemma checkout_empty_stamps :
  (fst (checkout ((full_session 0 2, checkout_heap 0 2), [])) = Ok tt
   ∧ PSF_list (fst (fst (snd (checkout ((full_session 0 2, checkout_heap 0 2), [])))))
     = Some [NdArray 0 0 0 0 2]
   ∧ snd (snd (checkout ((full_session 0 2, checkout_heap 0 2), []))) = [ready_line])
  ∧ (fst (checkout ((full_session 2 0, checkout_heap 2 0), [])) = Ok tt
     ∧ PSF_list (fst (fst (snd (checkout ((full_session 2 0, checkout_heap 2 0), [])))))
       = Some [NdArray 0 1 0 0 0]
     ∧ ¬ (np_sum (read (snd (fst (snd (checkout ((full_session 2 0,
                                                  checkout_heap 2 0), [])))))
                       (NdArray 0 1 0 0 0)) == 1)%Q).
Proof.
  split.
  - repeat split; reflexivity.
  - split; [reflexivity|]. split; [reflexivity|].
    intros H. vm_compute in H. discriminate H.
Qed.


(** ** Further runs *)

(** The exposure time read from the header is a scalar, and meets the same
    unbound name. *)
Example header_exptime_unbound :
  fst (generate_target_materials None (Some 2) None None false None ""
         (header_session, []))
  = Raise (UnboundLocalError "exptime_stamp").
Proof. reflexivity. Qed.

(** With neither an exposure time nor [EXPTIME] in the header the method
    raises [ValueError]. *)
Lemma missing_exptime_raises `{T : Tools} (self : DataProcess image)
    (out : list string) ck radius rl bs cm ip console r (hd : fits_header) :
  fov_noise_map self = None →
  choose_radius self radius rl = Ok r →
  exptime self = None → header self = Some hd → hd !! "EXPTIME" = None →
  fst (generate_target_materials ck radius rl bs cm ip console (self, out))
  = Raise (ValueError
             "No Exposure time information in the header, should input a value.").
Proof.
  intros Hnm Hr He Hh Hk. unfold generate_target_materials, estimate_noise.
  unfold_monad. simpl. rewrite Hr.
  destruct (default (if_plot self) ip), ck, bs; simpl; rewrite Hnm; simpl;
    unfold resolve_exptime; simpl; rewrite He, Hh, Hk; reflexivity.
Qed.

(** Without the selection index, [checkout] raises as well. *)
Lemma checkout_without_psf_id `{T : Tools} (s : DataProcess ndarray) (h : heap)
    (out : list string) (l : list ndarray) :
  PSF_list s = Some l → psf_id_for_fitting s = None →
  checkout ((s, h), out)
  = (Raise (AttributeError "psf_id_for_fitting"), ((s, h), out)).
Proof.
  intros Hl Hi. unfold checkout, current_psf. unfold_monad. simpl.
  rewrite Hl. simpl. by rewrite Hi.
Qed.

(** * Further properties of the session *)

(** ** The constructor, beyond the pixel position *)

Section InitProperties.
Context {T : Tools}.

(** X1.  The constructor answers a session exactly when a target position
    is given, the position type is ['pixel'] (and then a position given as a
    Python sequence has both entries within the 64-bit integers) or ['wcs']
    (and then the transform answers at least one row), and, when background
    removal is asked for on an image, the background map can be subtracted
    from it.  In every other case it raises. *)
Theorem init_returns_iff (fov : option image) (tp : option coords)
    (pos_type : string) (hd : option fits_header) (ex : option (exptime_t image))
    (nm : option image) (rm pl : bool) (z : option Q) :
  (∃ s out, init fov tp pos_type hd ex nm rm pl z = (Ok s, out))
  ↔ ∃ given, tp = Some given
        ∧ (pos_type = "pixel"
           ∧ (∀ xy, given = PySeq xy →
                    in_int64 (truncate (fst xy)) = true
                    ∧ in_int64 (truncate (snd xy)) = true)
           ∨ pos_type = "wcs" ∧ all_world2pix hd [pair_of given] 1 ≠ [])
        ∧ (∀ img, rm = true → fov = Some img →
                  is_Ok (binop Qminus img (measure_bkg img)) = true).
Proof.
  split.
  - intros (s & out & H).
    apply init_Ok_inv in H as (given & loc & pos & img & -> & Hloc & Hpos & Himg & _).
    exists given. split; [done|]. split.
    + destruct Hloc as [[-> ->]|[-> (p & rest & Hw & _)]].
      * left. split; [done|]. apply int0_Ok_iff. by rewrite Hpos.
      * right. split; [done|]. by rewrite Hw.
    + intros i -> ->. destruct (binop Qminus i (measure_bkg i)); done.
  - intros (given & -> & Hloc & Himg). unfold init.
    assert (∃ e, (match fov with
                  | Some img =>
                      if rm then match binop Qminus img (measure_bkg img) with
                                 | Ok img' => Ok (Some img')
                                 | Raise e => Raise e
                                 end
                      else Ok (Some img)
                  | None => Ok None
                  end) = Ok e) as [e He].
    { destruct fov as [img|]; [destruct rm|]; try by eexists.
      specialize (Himg img eq_refl eq_refl).
      destruct (binop Qminus img (measure_bkg img)); [by eexists|done]. }
    destruct Hloc as [[-> Hfit]|[-> Hw]].
    + simpl. apply int0_Ok_iff in Hfit. destruct (int0 given) as [pos|]; [|done].
      cbv zeta. rewrite He. by eexists _, _.
    + simpl. destruct (all_world2pix hd [pair_of given] 1) as [|p rest]; [done|].
      simpl. cbv zeta. rewrite He. by eexists _, _.
Qed.

(** X2.  With position type ['wcs'] the stored target position is the
    first row of the header's world-to-pixel transform of the given pair.
    The row is a float array: a coordinate is truncated toward zero when
    the truncated value fits a 64-bit integer, and is otherwise stored as
    the smallest 64-bit integer. *)
Theorem init_wcs_target_pos (fov : option image) (given : coords)
    (hd : option fits_header) (ex : option (exptime_t image)) (nm : option image)
    (rm pl : bool) (z : option Q) (s : DataProcess image) (out : list string) :
  init fov (Some given) "wcs" hd ex nm rm pl z = (Ok s, out) →
  ∃ p rest, all_world2pix hd [pair_of given] 1 = p :: rest
          ∧ fst (target_pos s)
            = (if in_int64 (truncate (fst p)) then truncate (fst p) else int64_min)
          ∧ snd (target_pos s)
            = (if in_int64 (truncate (snd p)) then truncate (snd p) else int64_min).
Proof.
  intros H.
  apply init_Ok_inv in H as (g & loc & pos & img & [= <-] & Hloc & Hpos & _ & -> & _).
  destruct Hloc as [[? _]|[_ (p & rest & Hw & ->)]]; [done|].
  exists p, rest. split; [done|]. simpl in Hpos. by injection Hpos as <-.
Qed.

(** X3.  A new session selects the first PSF, holds none of the attributes
    that the later methods create, keeps the exposure time, header, noise
    map and plot flag it was given, has a pixel scale exactly when it has a
    header, and has the zero point given or else 27.  The zero-point notice
    is printed exactly when no zero point was given, and the pixel-scale
    warning exactly when a header was given whose scale reads as 3600. *)
Theorem init_fresh_session (fov : option image) (tp : option coords)
    (pos_type : string) (hd : option fits_header) (ex : option (exptime_t image))
    (nm : option image) (rm pl : bool) (z : option Q)
    (s : DataProcess image) (out : list string) :
  init fov tp pos_type hd ex nm rm pl z = (Ok s, out) →
  (psf_id_for_fitting s = Some 0
   ∧ bkg_std s = None ∧ noise_map s = None ∧ apertures s = None
   ∧ target_stamp s = None ∧ target_mask s = None
   ∧ PSF_pos_list s = None ∧ PSF_list s = None)
  ∧ (exptime s = ex ∧ header s = hd ∧ fov_noise_map s = nm ∧ if_plot s = pl
     ∧ deltaPix s = read_pixel_scale <$> hd ∧ zp s = default 27%Q z)
  ∧ ("Zeropoint value is not provided, use 27.0 to calculate magnitude." ∈ out
     ↔ z = None)
  ∧ ("WARNING: pixel size could not read from the header! " ∈ out
     ↔ ∃ h, hd = Some h ∧ (read_pixel_scale h == 3600)%Q).
Proof.
  intros H.
  apply init_Ok_inv in H as (given & loc & pos & img & _ & _ & _ & _ & -> & ->).
  split; [done|]. split; [done|].
  assert (Hne : "WARNING: pixel size could not read from the header! "
                ≠ "Zeropoint value is not provided, use 27.0 to calculate magnitude.")
    by discriminate.
  split.
  - rewrite elem_of_app. split.
    + intros [Hin|Hin].
      * destruct hd as [h|]; simpl in Hin; [|by apply elem_of_nil in Hin].
        destruct (Qeq_bool _ _); [|by apply elem_of_nil in Hin].
        apply list_elem_of_singleton in Hin. by symmetry in Hin.
      * destruct z; [by apply elem_of_nil in Hin|done].
    + intros ->. right. apply list_elem_of_singleton. done.
  - rewrite elem_of_app. split.
    + intros [Hin|Hin].
      * destruct hd as [h|]; simpl in Hin; [|by apply elem_of_nil in Hin].
        destruct (Qeq_bool _ _) eqn:E; [|by apply elem_of_nil in Hin].
        exists h. split; [done|]. by apply Qeq_bool_iff.
      * destruct z; [by apply elem_of_nil in Hin|].
        apply list_elem_of_singleton in Hin. done.
    + intros (h & -> & Heq). left. simpl.
      apply Qeq_bool_iff in Heq. rewrite Heq. apply list_elem_of_singleton. done.
Qed.

(** X4.  Background removal touches the image only: with the flag set and
    an image given, the stored image is the image minus the measured
    background, pixel by pixel; with the flag unset the image is stored as
    given; with no image the flag is ignored.  The FOV-wide noise map is
    stored as given in every case. *)
Theorem init_background_removed (fov : option image) (tp : option coords)
    (pos_type : string) (hd : option fits_header) (ex : option (exptime_t image))
    (nm : option image) (rm pl : bool) (z : option Q)
    (s : DataProcess image) (out : list string) :
  init fov tp pos_type hd ex nm rm pl z = (Ok s, out) →
  (∀ img, rm = true → fov = Some img →
          ∃ img', binop Qminus img (measure_bkg img) = Ok img'
                ∧ fov_image s = Some img')
  ∧ (rm = false → fov_image s = fov)
  ∧ (fov = None → fov_image s = None)
  ∧ fov_noise_map s = nm.
Proof.
  intros H.
  apply init_Ok_inv in H as (given & loc & pos & img & _ & _ & _ & Himg & -> & _).
  simpl. destruct fov as [i|]; [destruct rm|].
  - destruct (binop Qminus i (measure_bkg i)) as [img'|e] eqn:E; [|done].
    injection Himg as <-. split; [|done]. intros img0 _ [= <-]. by exists img'.
  - injection Himg as <-. split; [|done]. by intros img0 ?.
  - injection Himg as <-. split; [|done]. by intros img0 ?.
Qed.
End InitProperties.

Lemma init_wcs_target_pos_witness :
  ∃ s out, init (T := sample_tools) None (Some (PySeq (5 # 4, 2)%Q)) "wcs"
             None None None false false (Some 27%Q) = (Ok s, out)
           ∧ target_pos s = (13, 21).
Proof.
  eexists _, _. split; [reflexivity|].
  destruct (init_wcs_target_pos (T := sample_tools) None (PySeq (5 # 4, 2)%Q) None None
              None false false (Some 27%Q) _ [] eq_refl) as (p & rest & Hp & Hx & Hy).
  injection Hp as <- _. apply injective_projections; [exact Hx|exact Hy].
Defined.

Lemma init_fresh_session_witness :
  ∃ s out, init (T := sample_tools) (Some sample_fov) (Some (PySeq (4, 4)%Q)) "pixel"
             (Some (<["PIXSCALE" := (13 # 100)%Q]> ∅)) None None false false None
           = (Ok s, out)
         ∧ psf_id_for_fitting s = Some 0 ∧ PSF_list s = None
         ∧ deltaPix s = Some (13 # 100)%Q ∧ zp s = 27%Q
         ∧ out = ["Zeropoint value is not provided, use 27.0 to calculate magnitude."].
Proof.
  eexists _, _. split; [reflexivity|].
  destruct (init_fresh_session (T := sample_tools) (Some sample_fov) (Some (PySeq (4, 4)%Q))
              "pixel" (Some (<["PIXSCALE" := (13 # 100)%Q]> ∅)) None None false false
              None _ _ eq_refl)
    as ((Hid & _ & _ & _ & _ & _ & _ & Hl) & (_ & _ & _ & _ & Hd & Hz) & _).
  split; [exact Hid|]. split; [exact Hl|]. split; [exact Hd|]. split; [exact Hz|].
  reflexivity.
Defined.

Lemma init_background_removed_witness :
  ∃ s out, init (T := sample_tools) (Some sample_fov) (Some (PySeq (4, 4)%Q)) "pixel"
             None None (Some sample_noise_fov) true false (Some 27%Q)
           = (Ok s, out)
         ∧ (∃ img', binop Qminus sample_fov (measure_bkg sample_fov) = Ok img'
                  ∧ fov_image s = Some img')
         ∧ fov_noise_map s = Some sample_noise_fov.
Proof.
  eexists _, _. split; [reflexivity|].
  destruct (init_background_removed (T := sample_tools) (Some sample_fov)
              (Some (PySeq (4, 4)%Q)) "pixel" None None (Some sample_noise_fov) true false
              (Some 27%Q) _ _ eq_refl) as (Hrm & _ & _ & Hnm).
  split; [exact (Hrm sample_fov eq_refl eq_refl)|exact Hnm].
Defined.

(** ** [generate_target_materials], beyond the noise formula *)

Section GenerateProperties.
Context {T : Tools}.
Implicit Type self : DataProcess image.

Lemma radius_loop_member self (l : list Z) (acc : option Z) (r : Z) :
  radius_loop self l acc = Ok (Some r) → r ∈ l ∨ acc = Some r.
Proof.
  revert acc. induction l as [|x l IH]; intros acc; cbn [radius_loop].
  - intros [= ->]. by right.
  - destruct (edge_percent self x) as [p|]; [|done].
    destruct (Qlt_bool p (3 # 100)).
    + intros [= ->]. left. apply elem_of_cons. by left.
    + intros H. apply IH in H as [H|[= ->]]; left; apply elem_of_cons; auto.
Qed.

(** X5.  The radius the loop chooses is always an entry of the radius list
    it was given (or of the built-in list). *)
Theorem chosen_radius_in_list self (radius_list : option (list Z)) (r : Z) :
  choose_radius self None radius_list = Ok r →
  r ∈ default default_radius_list radius_list.
Proof.
  unfold choose_radius.
  destruct (radius_loop self _ None) as [[rad|]|] eqn:E; [|done..].
  intros [= <-]. by apply radius_loop_member in E as [?|?].
Qed.

(** X6.  The loop stops at the first qualifying entry: the entries after
    it are not examined, so a later entry whose stamp has no border cannot
    make the call fail. *)
Theorem radius_loop_stops_early self (pre post : list Z) (r : Z) :
  Forall (λ x, ∃ p, edge_percent self x = Ok p ∧ Qlt_bool p (3 # 100) = false) pre →
  qualifies self r = true →
  choose_radius self None (Some (pre ++ r :: post)) = Ok r.
Proof.
  intros Hpre Hr. unfold choose_radius. cbn [default].
  assert (G : ∀ acc, radius_loop self (pre ++ r :: post) acc = Ok (Some r));
    [|by rewrite G].
  induction Hpre as [|x pre (p & Hp & Hlt) _ IH]; intros acc.
  - cbn [app radius_loop]. unfold qualifies in Hr.
    destruct (edge_percent self r); [|done]. by rewrite Hr.
  - cbn [app radius_loop]. rewrite Hp, Hlt. apply IH.
Qed.

Lemma fold_binop_inplace_shape (f : Q → Q → Q) (l : list image) (acc m : image) :
  fold_res (binop_inplace f) acc l = Ok m → shape m = shape acc.
Proof.
  revert acc. induction l as [|x l IH]; intros acc; cbn [fold_res].
  - by intros [= ->].
  - destruct (binop_inplace f acc x) as [acc'|] eqn:E; [|done].
    intros H. apply IH in H. rewrite H. by eapply binop_inplace_shape.
Qed.

Lemma map_res_Forall2 {A B} (f : A → res B) (l : list A) (ys : list B) :
  map_res f l = Ok ys → Forall2 (λ x y, f x = Ok y) l ys.
Proof.
  revert ys. induction l as [|x l IH]; intros ys; cbn [map_res].
  - intros [= <-]. constructor.
  - destruct (f x) as [y|] eqn:E; [|done].
    destruct (map_res f l) as [ys'|]; [|done].
    intros [= <-]. constructor; [done|]. by apply IH.
Qed.

(** [int] of one numeric character is a single digit. *)
Lemma int_of_numeric_char (c : ascii) (d : Z) :
  int_of_numeric (String c EmptyString) = Ok d → 0 ≤ d ≤ 9.
Proof.
  unfold int_of_numeric, int_of_digits, is_decimal. simpl.
  destruct (digit_of_ascii c) as [k|] eqn:E; simpl; [|done].
  intros [= <-]. unfold digit_of_ascii in E.
  destruct (_ && _)%N eqn:Eb; [|done]. injection E as <-.
  apply andb_true_iff in Eb as [E1 E2]. apply N.leb_le in E1, E2. lia.
Qed.

(** Lines 153-154: the indices read from the typed line, one character at
    a time, are single digits. *)
Lemma typed_indices_digits (console : string) (idx : list Z) :
  map_res int_of_numeric
    (filter (λ c, isnumeric c = true)
       (map (λ c, String c EmptyString) (list_ascii_of_string console))) = Ok idx →
  Forall (λ d, 0 ≤ d ≤ 9) idx.
Proof.
  intros H. apply map_res_Forall2 in H.
  assert (Hchars : Forall (λ w, ∃ c, w = String c EmptyString)
            (filter (λ c, isnumeric c = true)
               (map (λ c, String c EmptyString) (list_ascii_of_string console)))).
  { apply Forall_forall. intros w Hw. apply list_elem_of_filter in Hw as [_ Hw].
    apply list_elem_of_fmap in Hw as (c & -> & _). by exists c. }
  induction H as [|w d ws ds Hwd _ IH]; [constructor|].
  apply Forall_cons in Hchars as [(c & ->) Hrest].
  constructor; [by eapply int_of_numeric_char|by apply IH].
Qed.

Lemma select_mask_shape (stamp : image) (aps rest : list aperture)
    (console : string) (m : image) :
  select_mask stamp aps console = Ok (rest, m) → shape m = shape stamp.
Proof.
  unfold select_mask. unfold_monad.
  destruct (map_res int_of_numeric _) as [idx|]; [|done].
  destruct (map_res _ idx) as [chosen|]; [|done].
  destruct (fold_res _ _ _) as [m'|] eqn:E; [|done].
  intros [= _ <-]. by apply fold_binop_inplace_shape in E.
Qed.

(** X7.  With a FOV-wide noise map the exposure time plays no part: once
    the radius is settled, a call without interactive masking returns
    whatever the exposure time and the header are, the noise map is the
    cut of the FOV-wide map at the centre the stamp was cut at, and no
    background estimate is stored. *)
Theorem noise_cut_from_fov_noise_map self (out : list string) (ck : option string)
    (radius : option Z) (rl : option (list Z)) (bs : option Q) (ip : option bool)
    (console : string) (r : Z) (nm : image) :
  fov_noise_map self = Some nm →
  choose_radius self radius rl = Ok r →
  ∃ σ, generate_target_materials ck radius rl bs false ip console (self, out)
       = (Ok tt, σ)
     ∧ noise_map (fst σ) = Some (cutout (Some nm) (center_cut self ck r) r)
     ∧ target_stamp (fst σ) = Some (stamp_cut self ck r)
     ∧ target_pos (fst σ) = center_cut self ck r
     ∧ bkg_std (fst σ) = bkg_std self.
Proof.
  intros Hnm Hr. unfold generate_target_materials, stamp_cut, center_cut.
  unfold_monad. simpl. rewrite Hr.
  destruct (default (if_plot self) ip), ck; simpl; rewrite Hnm; simpl;
    eexists; (split; [reflexivity|done]).
Qed.

(** X8.  After a call that returns, the target stamp, the target mask and
    the apertures are all set, and the mask has the shape of the stamp;
    without interactive masking the mask is all ones and every detected
    aperture is kept. *)
Theorem target_mask_shape self (out : list string) (ck : option string)
    (radius : option Z) (rl : option (list Z)) (bs : option Q) (cm : bool)
    (ip : option bool) (console : string) σ :
  generate_target_materials ck radius rl bs cm ip console (self, out) = (Ok tt, σ) →
  ∃ t m aps, target_stamp (fst σ) = Some t ∧ target_mask (fst σ) = Some m
           ∧ apertures (fst σ) = Some aps
           ∧ shape m = shape t
           ∧ (cm = false → m = ones_like t ∧ aps = detect_obj t).
Proof.
  unfold generate_target_materials, estimate_noise. unfold_monad. simpl.
  destruct (choose_radius self radius rl) as [r|]; simpl; [|done].
  destruct (default (if_plot self) ip), ck as [k|]; simpl.
  all: destruct (fov_noise_map self) as [nm|]; simpl.
  all: try (destruct bs as [bsv|]; simpl;
            (destruct (resolve_exptime _) as [[tm|em]|]; simpl; [done| |done]);
            (destruct (binop Qdiv _ _) as [rt|]; simpl; [|done]);
            (match goal with
             | |- context [bkg_std ?s] => destruct (bkg_std s); simpl; [|done]
             | _ => idtac
             end)).
  all: (destruct cm; [destruct (select_mask _ _ _) as [[rest mk]|] eqn:Hm|];
        simpl; [|done|]).
  all: intros [= <-]; simpl; eexists _, _, _; (split; [reflexivity|]);
       (split; [reflexivity|]); (split; [reflexivity|]).
  all: split; [|done].
  all: try (by apply select_mask_shape in Hm).
  all: done.
Qed.

(** X9.  A call that fails in the noise step leaves the session half
    updated: the target position is already the centre the stamp was cut
    at, and the background estimate is already stored when none was
    passed, while the target stamp, the mask and the apertures are as they
    were before the call. *)
Theorem failed_call_keeps_partial_state self (out : list string)
    (ck : option string) (radius : option Z) (rl : option (list Z))
    (bs : option Q) (cm : bool) (ip : option bool) (console : string) (r : Z) (t : Q) :
  fov_noise_map self = None →
  choose_radius self radius rl = Ok r →
  resolve_exptime self = Ok (ExpScalar t) →
  ∃ e σ, generate_target_materials ck radius rl bs cm ip console (self, out)
         = (Raise e, σ)
       ∧ target_pos (fst σ) = center_cut self ck r
       ∧ bkg_std (fst σ)
         = match bs with
           | None => Some (esti_bgkstd (cutout (fov_image self)
                                          (center_cut self ck r) (r * 2)))
           | Some _ => bkg_std self
           end
       ∧ target_stamp (fst σ) = target_stamp self
       ∧ target_mask (fst σ) = target_mask self
       ∧ apertures (fst σ) = apertures self.
Proof.
  intros Hnm Hr Ht. unfold generate_target_materials, estimate_noise, center_cut.
  unfold_monad. simpl. rewrite Hr.
  destruct (default (if_plot self) ip), ck, bs; simpl; rewrite Hnm; simpl;
    (erewrite resolve_exptime_frame; [rewrite Ht|reflexivity..]); simpl;
    eexists _, _; (split; [reflexivity|done]).
Qed.

(** X10.  When no exposure time can be found the noise step raises, and
    the kind of error depends on the header: [ValueError] when there is a
    header without [EXPTIME], [AttributeError] when there is no header at
    all. *)
Theorem unresolved_exptime_raises self (out : list string) (ck : option string)
    (radius : option Z) (rl : option (list Z)) (bs : option Q) (cm : bool)
    (ip : option bool) (console : string) (r : Z) :
  fov_noise_map self = None →
  choose_radius self radius rl = Ok r →
  exptime self = None →
  (∀ hd, header self = Some hd → hd !! "EXPTIME" = None) →
  fst (generate_target_materials ck radius rl bs cm ip console (self, out))
  = Raise (match header self with
           | Some _ => ValueError
               "No Exposure time information in the header, should input a value."
           | None => AttributeError "keys"
           end).
Proof.
  intros Hnm Hr He Hk. unfold generate_target_materials, estimate_noise.
  unfold_monad. simpl. rewrite Hr.
  destruct (header self) as [hd|] eqn:Hh;
    [specialize (Hk hd eq_refl)|];
    destruct (default (if_plot self) ip), ck, bs; simpl; rewrite Hnm; simpl;
      unfold resolve_exptime; simpl; rewrite He, Hh, ?Hk; reflexivity.
Qed.

(** X11.  The indices typed for the mask are read one character at a
    time, so each is a single digit: a detected object at position 10 or
    beyond is never masked out, it always stays among the apertures. *)
Theorem mask_selection_single_digits (stamp : image) (aps rest : list aperture)
    (console : string) (m : image) (i : nat) (a : aperture) :
  select_mask stamp aps console = Ok (rest, m) →
  (10 ≤ i)%nat → aps !! i = Some a → a ∈ rest.
Proof.
  unfold select_mask. unfold_monad.
  destruct (map_res int_of_numeric _) as [idx|] eqn:Eidx; [|done].
  destruct (map_res _ idx) as [chosen|]; [|done].
  destruct (fold_res _ _ _) as [m'|]; [|done].
  intros [= <- _] Hi Ha. apply typed_indices_digits in Eidx.
  apply list_elem_of_omap. exists (i, a). split.
  - apply list_elem_of_lookup. exists i. apply lookup_zip_with_Some.
    exists i, a. split; [done|]. split; [|done].
    apply lookup_seq. split; [done|]. by eapply lookup_lt_Some.
  - cbn [fst snd]. rewrite bool_decide_eq_false_2; [done|].
    intros Hin. rewrite Forall_forall in Eidx. apply Eidx in Hin. lia.
Qed.

(** X12.  Whatever way the call ends, it leaves the FOV image, the FOV
    noise map, the exposure time, the header, the pixel scale, the zero
    point, the plot flag and everything about PSFs as they were. *)
Theorem generate_frame self (out : list string) (ck : option string)
    (radius : option Z) (rl : option (list Z)) (bs : option Q) (cm : bool)
    (ip : option bool) (console : string) :
  ∃ res σ, generate_target_materials ck radius rl bs cm ip console (self, out)
           = (res, σ)
         ∧ fov_image (fst σ) = fov_image self
         ∧ fov_noise_map (fst σ) = fov_noise_map self
         ∧ exptime (fst σ) = exptime self
         ∧ header (fst σ) = header self
         ∧ deltaPix (fst σ) = deltaPix self
         ∧ zp (fst σ) = zp self
         ∧ if_plot (fst σ) = if_plot self
         ∧ psf_id_for_fitting (fst σ) = psf_id_for_fitting self
         ∧ PSF_pos_list (fst σ) = PSF_pos_list self
         ∧ PSF_list (fst σ) = PSF_list self.
Proof.
  unfold generate_target_materials, estimate_noise. unfold_monad. simpl.
  destruct (choose_radius self radius rl) as [r|]; simpl; [|by eexists _, _].
  destruct (default (if_plot self) ip), ck as [k|]; simpl.
  all: destruct (fov_noise_map self) as [nm|] eqn:Hnm; simpl.
  all: try (destruct bs as [bsv|]; simpl;
            (destruct (resolve_exptime _) as [[tm|em]|]; simpl;
             [by eexists _, _| |by eexists _, _]);
            (destruct (binop Qdiv _ _) as [rt|]; simpl; [|by eexists _, _]);
            (match goal with
             | |- context [bkg_std ?s] =>
                 destruct (bkg_std s); simpl; [|by eexists _, _]
             | _ => idtac
             end)).
  all: (destruct cm; [destruct (select_mask _ _ _) as [[rest m']|]|]; simpl).
  all: by eexists _, _.
Qed.
End GenerateProperties.

Lemma chosen_radius_in_list_witness :
  3 ∈ default default_radius_list (Some [2; 3; 4]).
Proof.
  apply (chosen_radius_in_list (sample_session None None) (Some [2; 3; 4]) 3).
  reflexivity.
Defined.

(** The entry after the chosen one, a negative radius, has a stamp with no
    border; the loop never gets to it. *)
Lemma radius_loop_stops_early_witness :
  choose_radius (sample_session None None) None (Some ([2] ++ 3 :: [-1])) = Ok 3.
Proof.
  apply (radius_loop_stops_early (sample_session None None) [2] [-1] 3).
  - constructor; [|constructor]. eexists. split; reflexivity.
  - reflexivity.
Defined.

Lemma noise_cut_from_fov_noise_map_witness :
  ∃ σ, generate_target_materials None (Some 2) None None false None ""
         (sample_session None (Some sample_noise_fov), [])
       = (Ok tt, σ)
     ∧ noise_map (fst σ)
       = Some (cutout (Some sample_noise_fov)
                 (center_cut (sample_session None (Some sample_noise_fov)) None 2) 2)
     ∧ target_stamp (fst σ)
       = Some (stamp_cut (sample_session None (Some sample_noise_fov)) None 2)
     ∧ target_pos (fst σ)
       = center_cut (sample_session None (Some sample_noise_fov)) None 2
     ∧ bkg_std (fst σ) = bkg_std (sample_session None (Some sample_noise_fov)).
Proof.
  apply (noise_cut_from_fov_noise_map (sample_session None (Some sample_noise_fov)) []
           None (Some 2) None None None "" 2 sample_noise_fov);
    reflexivity.
Defined.

Lemma target_mask_shape_witness :
  ∃ t m aps,
    target_stamp (fst (snd (generate_target_materials None (Some 2) None None false
                              None "" (sample_session None (Some sample_noise_fov), []))))
    = Some t
    ∧ target_mask (fst (snd (generate_target_materials None (Some 2) None None false
                               None "" (sample_session None (Some sample_noise_fov), []))))
      = Some m
    ∧ apertures (fst (snd (generate_target_materials None (Some 2) None None false
                             None "" (sample_session None (Some sample_noise_fov), []))))
      = Some aps
    ∧ shape m = shape t
    ∧ (false = false → m = ones_like t ∧ aps = detect_obj t).
Proof.
  apply (target_mask_shape (sample_session None (Some sample_noise_fov)) []
           None (Some 2) None None false None "").
  reflexivity.
Defined.

Lemma failed_call_keeps_partial_state_witness :
  ∃ e σ, generate_target_materials (Some "center_gaussian") (Some 2) None None false
           None "" (sample_session (Some (ExpScalar 100)) None, [])
         = (Raise e, σ)
       ∧ target_pos (fst σ) = (4, 4)
       ∧ bkg_std (fst σ)
         = Some (esti_bgkstd (cutout (Some sample_fov) (4, 4) (2 * 2)))
       ∧ target_stamp (fst σ) = None
       ∧ target_mask (fst σ) = None
       ∧ apertures (fst σ) = None.
Proof.
  apply (failed_call_keeps_partial_state (sample_session (Some (ExpScalar 100)) None) []
           (Some "center_gaussian") (Some 2) None None false None "" 2 100);
    reflexivity.
Defined.

Lemma unresolved_exptime_raises_witness :
  fst (generate_target_materials None (Some 2) None None false None ""
         (bare_header_session, []))
  = Raise (ValueError
             "No Exposure time information in the header, should input a value.").
Proof.
  apply (unresolved_exptime_raises bare_header_session [] None (Some 2) None None
           false None "" 2); try reflexivity.
  intros hd [= <-]. reflexivity.
Defined.

(** Twelve detected objects, and the line "19" typed at the prompt: the
    objects 1 and 9 are masked, the object 10 is not. *)
Lemma mask_selection_single_digits_witness :
  ∃ rest m, select_mask (T := sample_tools) (crop (Some sample_fov) (4, 4) 2)
              (seq 0 12) "19" = Ok (rest, m)
          ∧ (10%nat ∈ rest) ∧ (1%nat ∉ rest) ∧ (9%nat ∉ rest).
Proof.
  eexists _, _. split; [reflexivity|]. split.
  - apply (mask_selection_single_digits (T := sample_tools)
             (crop (Some sample_fov) (4, 4) 2) (seq 0 12) _ "19" _ 10 10%nat eq_refl);
      [lia|reflexivity].
  - split; intros H; vm_compute in H;
      repeat (apply elem_of_cons in H as [H|H]; [discriminate H|]);
      by apply elem_of_nil in H.
Defined.

(** ** [find_PSF], beyond the filter *)

Lemma getitem_elem_of {A} (l : list A) (i : Z) (a : A) :
  getitem l i = Ok a → a ∈ l.
Proof.
  unfold getitem. destruct (py_index (length l) i) as [k|]; [|done].
  destruct (l !! k) as [x|] eqn:E; [|done]. intros [= <-].
  by eapply list_elem_of_lookup_2.
Qed.

Lemma getitem_of_nat {A} (l : list A) (i : nat) (a : A) :
  getitem l (Z.of_nat i) = Ok a → l !! i = Some a.
Proof.
  unfold getitem, py_index.
  destruct (Z.ltb_spec (Z.of_nat i) 0); [lia|].
  destruct (_ && _); [|done]. rewrite Nat2Z.id.
  destruct (l !! i); [|done]. by intros [= <-].
Qed.

(** The running minimum of [FWHMs.min()]: it is below every element and is
    one of them. *)
Lemma foldl_min_spec (l : list Q) (m0 : Q) :
  let m := foldl (λ m y, if Qlt_bool y m then y else m) m0 l in
  (m <= m0)%Q ∧ Forall (λ y, (m <= y)%Q) l ∧ (m = m0 ∨ m ∈ l).
Proof.
  revert m0. induction l as [|y l IH]; intros m0; cbn [foldl].
  - split; [apply Qle_refl|]. split; [constructor|by left].
  - destruct (Qlt_bool y m0) eqn:E.
    + destruct (IH y) as (Hle & Hall & Hin). apply Qlt_bool_true in E.
      split; [eapply Qle_trans; [exact Hle|by apply Qlt_le_weak]|].
      split; [by constructor|]. right. apply elem_of_cons.
      destruct Hin as [->|Hin]; [by left|by right].
    + destruct (IH m0) as (Hle & Hall & Hin).
      assert (Hm0 : (m0 <= y)%Q).
      { apply Qnot_lt_le. intros Hlt. apply Qlt_bool_true in Hlt. congruence. }
      split; [done|]. split; [constructor; [by eapply Qle_trans|done]|].
      destruct Hin as [->|Hin]; [by left|]. right. apply elem_of_cons. by right.
Qed.

Lemma argmin_first_spec (l : list Q) (i : nat) :
  argmin_first l = Ok i →
  ∃ x, l !! i = Some x ∧ Forall (λ y, (x <= y)%Q) l.
Proof.
  unfold argmin_first, Qmin_list. destruct l as [|x0 l]; [done|].
  pose proof (foldl_min_spec l x0) as (Hle & Hall & _). cbv zeta in *.
  set (m := foldl _ x0 l) in *.
  destruct (list_find _ _) as [[j x]|] eqn:E; [|done]. intros [= <-].
  apply list_find_Some in E as (Hj & Hx & _). exists x. split; [done|].
  apply Qeq_bool_iff in Hx.
  constructor; [by rewrite Hx|].
  eapply Forall_impl; [exact Hall|]. intros y Hy. simpl in Hy. by rewrite Hx.
Qed.

Section FindPSFMore.
Context {T : Tools}.
Implicit Type self : DataProcess image.

(** [print_lines] appends its lines to what was printed, in order. *)
Lemma print_lines_run self (out lines : list string) :
  print_lines lines (self, out) = (Ok tt, (self, out ++ lines)).
Proof.
  revert out. induction lines as [|l ls IH]; intros out; cbn [print_lines].
  - unfold_monad. by rewrite app_nil_r.
  - unfold_monad. simpl. unfold_monad. rewrite IH. by rewrite <- app_assoc.
Qed.

(** The listing has two lines for each candidate. *)
Lemma listing_length self (radius : Z) (cands : list candidate) :
  length (listing self radius cands) = (2 * length cands)%nat.
Proof.
  unfold listing.
  assert (Htwo : ∀ i c, length (candidate_lines self radius i c) = 2%nat) by done.
  revert Htwo. generalize (candidate_lines self radius).
  induction cands as [|c cands IH]; intros f Hf; [done|].
  cbn [imap concat]. rewrite length_app, Hf, IH; [simpl; lia|].
  intros i c'. apply Hf.
Qed.

(** The choice of the positions, as an answer and what was printed: the
    listing in the interactive way, nothing in the automatic way.  The
    session is not touched. *)
Lemma choose_positions_run self (out : list string) (radius : Z)
    (cands : list candidate) (user_option : bool) (console : string) :
  choose_positions radius cands user_option console (self, out)
  = (if user_option
     then match map_res int_of_numeric
                  (filter (λ w, isnumeric w = true) (split_spaces console)) with
          | Ok select_idx =>
              map_res (λ i, match getitem cands i with
                            | Ok c => Ok (Pos (c_loc c))
                            | Raise e => Raise e
                            end) select_idx
          | Raise e => Raise e
          end
     else match argmin_first (map c_fwhm cands) with
          | Ok i => match getitem cands (Z.of_nat i) with
                    | Ok c => Ok [Pos (c_loc c)]
                    | Raise e => Raise e
                    end
          | Raise e => Raise e
          end,
     (self, if user_option then out ++ listing self radius cands else out)).
Proof.
  unfold choose_positions. destruct user_option.
  - unfold_monad. simpl. rewrite print_lines_run.
    destruct (map_res int_of_numeric _) as [idx|]; simpl; [|done].
    by destruct (map_res _ idx).
  - unfold_monad. destruct (argmin_first _) as [i|]; [|done].
    by destruct (getitem _ _).
Qed.

(** X13.  After a call that returns, the PSF list holds one stamp for each
    stored PSF position, in order: the stamp cut around that position with
    the Gaussian-centre kernel at the given radius. *)
Theorem find_PSF_stamps self (out : list string) (radius : Z)
    (given : option (list (Q * Q))) (pos_type : string) (user_option : bool)
    (console : string) σ :
  find_PSF radius given pos_type user_option console (self, out) = (Ok tt, σ) →
  ∃ ps, PSF_pos_list (fst σ) = Some ps
      ∧ PSF_list (fst σ)
        = Some (map (λ c, fst (cut_center_auto (fov_image self) c
                                 (Some "center_gaussian") radius)) ps).
Proof.
  unfold find_PSF, explicit_positions. unfold_monad. simpl.
  destruct given as [given|]; simpl.
  - destruct (String.eqb pos_type "pixel"); simpl.
    + intros [= <-]. by eexists.
    + destruct (String.eqb pos_type "wcs"); simpl.
      * destruct (PSF_pos_list self) as [old|]; simpl; [|done].
        destruct (map_res _ _) as [new|]; simpl; [|done].
        intros [= <-]. by eexists.
      * destruct (PSF_pos_list self) as [old|] eqn:Hold; simpl; [|done].
        intros [= <-]. exists old. by split.
  - rewrite choose_positions_run.
    generalize (if user_option then out ++ listing self radius (kept self radius)
                else out).
    intros out'. destruct (if user_option then _ else _) as [chosen|]; simpl; [|done].
    intros [= <-]. by eexists.
Qed.

(** X14.  With position type ['pixel'] the given positions are stored as
    they are, the call always returns, and it prints nothing. *)
Theorem find_PSF_pixel_positions self (out : list string) (radius : Z)
    (given : list (Q * Q)) (user_option : bool) (console : string) :
  ∃ s', find_PSF radius (Some given) "pixel" user_option console (self, out)
        = (Ok tt, (s', out))
      ∧ PSF_pos_list s' = Some (map Pos given)
      ∧ length <$> PSF_list s' = Some (length given).
Proof.
  unfold find_PSF, explicit_positions. unfold_monad. simpl.
  eexists. split; [reflexivity|]. split; [done|]. simpl.
  by rewrite !length_map.
Qed.

(** X15.  A position type other than ['pixel'] and ['wcs'] is not
    rejected, as it is in the constructor: the given positions are
    dropped without notice.  On a session without stored positions the
    call then raises [AttributeError]; on one with stored positions it
    keeps them and cuts their stamps again. *)
Theorem find_PSF_unknown_pos_type self (out : list string) (radius : Z)
    (given : list (Q * Q)) (pos_type : string) (user_option : bool)
    (console : string) :
  pos_type ≠ "pixel" → pos_type ≠ "wcs" →
  match PSF_pos_list self with
  | None =>
      find_PSF radius (Some given) pos_type user_option console (self, out)
      = (Raise (AttributeError "PSF_pos_list"), (self, out))
  | Some old =>
      ∃ s', find_PSF radius (Some given) pos_type user_option console (self, out)
            = (Ok tt, (s', out))
          ∧ PSF_pos_list s' = Some old
  end.
Proof.
  intros Hp Hw. unfold find_PSF, explicit_positions. unfold_monad. simpl.
  apply String.eqb_neq in Hp, Hw. rewrite Hp, Hw. simpl.
  destruct (PSF_pos_list self) as [old|] eqn:Hold; simpl; [|done]. by eexists.
Qed.

(** X16.  In the candidate search every stored PSF position is the
    location of a candidate that passed the filter, in both ways of
    choosing; in the automatic way there is exactly one, and no kept
    candidate has a smaller mean FWHM. *)
Theorem find_PSF_search_positions self (out : list string) (radius : Z)
    (pos_type : string) (user_option : bool) (console : string) σ :
  find_PSF radius None pos_type user_option console (self, out) = (Ok tt, σ) →
  ∃ ps, PSF_pos_list (fst σ) = Some ps
      ∧ (∀ p, p ∈ ps → ∃ c, c ∈ kept self radius ∧ p = Pos (c_loc c))
      ∧ (user_option = false →
         ∃ c, ps = [Pos (c_loc c)] ∧ c ∈ kept self radius
            ∧ ∀ c', c' ∈ kept self radius → (c_fwhm c <= c_fwhm c')%Q).
Proof.
  unfold find_PSF. unfold_monad. simpl. rewrite choose_positions_run.
  destruct user_option.
  - destruct (map_res int_of_numeric _) as [select_idx|]; simpl; [|done].
    destruct (map_res _ select_idx) as [chosen|] eqn:E; simpl; [|done].
    intros [= <-]. simpl. exists chosen. split; [done|].
    split; [|done]. apply map_res_Forall2 in E.
    intros p Hp. apply list_elem_of_lookup in Hp as [i Hi].
    destruct (Forall2_lookup_r _ _ _ _ _ E Hi) as (idx & _ & Hidx).
    destruct (getitem _ idx) as [c|] eqn:Hc; [|done].
    injection Hidx as <-. exists c. split; [|done]. by eapply getitem_elem_of.
  - destruct (argmin_first _) as [i|] eqn:Hi; simpl; [|done].
    destruct (getitem _ _) as [c|] eqn:Hc; simpl; [|done].
    intros [= <-]. simpl. exists [Pos (c_loc c)]. split; [done|].
    apply getitem_of_nat in Hc.
    assert (Hin : c ∈ kept self radius) by (by eapply list_elem_of_lookup_2).
    split.
    + intros p Hp. apply list_elem_of_singleton in Hp as ->. by exists c.
    + intros _. exists c. split; [done|]. split; [done|].
      apply argmin_first_spec in Hi as (x & Hx & Hall).
      rewrite list_lookup_fmap, Hc in Hx. injection Hx as <-.
      intros c' Hc'. rewrite Forall_forall in Hall. apply Hall.
      apply list_elem_of_fmap. by exists c'.
Qed.

(** X17.  When no candidate passes the filter, the automatic choice has
    nothing to take the minimum of: the call raises [ValueError] and
    stores nothing. *)
Theorem find_PSF_no_candidate self (out : list string) (radius : Z)
    (pos_type : string) (console : string) :
  kept self radius = [] →
  find_PSF radius None pos_type false console (self, out)
  = (Raise (ValueError "zero-size array to reduction operation minimum"),
     (self, out)).
Proof.
  intros H. unfold find_PSF. unfold_monad.
  rewrite choose_positions_run. simpl. by rewrite H.
Qed.

(** X18.  In the interactive way the kept candidates are listed first,
    two lines for each.  A typed line without any numeric word then
    chooses nothing: the call returns with an empty position list and an
    empty PSF list. *)
Theorem find_PSF_interactive_no_choice self (out : list string) (radius : Z)
    (pos_type : string) (console : string) :
  filter (λ w, isnumeric w = true) (split_spaces console) = [] →
  ∃ s', find_PSF radius None pos_type true console (self, out)
        = (Ok tt, (s', out ++ listing self radius (kept self radius)))
      ∧ length (listing self radius (kept self radius))
        = (2 * length (kept self radius))%nat
      ∧ PSF_pos_list s' = Some [] ∧ PSF_list s' = Some [].
Proof.
  intros H. unfold find_PSF. unfold_monad.
  rewrite choose_positions_run. simpl. rewrite H. simpl.
  eexists. split; [reflexivity|].
  split; [apply listing_length|done].
Qed.

(** X19.  Whatever way the call ends, it changes nothing but the PSF
    positions and the PSF list.  It prints the listing of the kept
    candidates, two lines for each, when it searches in the interactive
    way, and nothing otherwise. *)
Theorem find_PSF_frame self (out : list string) (radius : Z)
    (given : option (list (Q * Q))) (pos_type : string) (user_option : bool)
    (console : string) :
  ∃ res s', find_PSF radius given pos_type user_option console (self, out)
            = (res, (s', out ++ match given with
                                | None => if user_option
                                          then listing self radius (kept self radius)
                                          else []
                                | Some _ => []
                                end))
          ∧ target_pos s' = target_pos self ∧ exptime s' = exptime self
          ∧ if_plot s' = if_plot self ∧ header s' = header self
          ∧ deltaPix s' = deltaPix self ∧ fov_image s' = fov_image self
          ∧ fov_noise_map s' = fov_noise_map self
          ∧ psf_id_for_fitting s' = psf_id_for_fitting self ∧ zp s' = zp self
          ∧ bkg_std s' = bkg_std self ∧ noise_map s' = noise_map self
          ∧ apertures s' = apertures self ∧ target_stamp s' = target_stamp self
          ∧ target_mask s' = target_mask self.
Proof.
  unfold find_PSF, explicit_positions. unfold_monad. simpl.
  destruct given as [given|]; simpl; rewrite ?app_nil_r.
  - destruct (String.eqb pos_type "pixel"); simpl; [by eexists _, _|].
    destruct (String.eqb pos_type "wcs"); simpl.
    + destruct (PSF_pos_list self) as [old|]; simpl; [|by eexists _, _].
      destruct (map_res _ _) as [new|]; simpl; by eexists _, _.
    + destruct (PSF_pos_list self) as [old|]; simpl; by eexists _, _.
  - rewrite choose_positions_run. destruct user_option; rewrite ?app_nil_r.
    + destruct (map_res int_of_numeric _) as [select_idx|]; simpl; [|by eexists _, _].
      destruct (map_res _ select_idx) as [chosen|]; simpl; by eexists _, _.
    + destruct (argmin_first _) as [i|]; simpl; [|by eexists _, _].
      destruct (getitem _ _) as [c|]; simpl; by eexists _, _.
Qed.

(** In the interactive way a numeric word that is not made of decimal
    digits, such as a superscript two, passes [isnumeric] and is refused
    by [int]: the call raises [ValueError] after the listing, and stores
    nothing. *)
Lemma find_PSF_interactive_not_decimal self (out : list string) (radius : Z)
    (pos_type : string) (console : string) (e : exn) :
  map_res int_of_numeric (filter (λ w, isnumeric w = true) (split_spaces console))
  = Raise e →
  find_PSF radius None pos_type true console (self, out)
  = (Raise e, (self, out ++ listing self radius (kept self radius))).
Proof.
  intros H. unfold find_PSF. unfold_monad.
  rewrite choose_positions_run. simpl. by rewrite H.
Qed.
End FindPSFMore.

Lemma find_PSF_stamps_witness :
  ∃ ps, PSF_pos_list (fst (snd (find_PSF 2 (Some [(3, 3); (9, 3)]%Q) "pixel" false ""
                                  (star_session, [])))) = Some ps
      ∧ PSF_list (fst (snd (find_PSF 2 (Some [(3, 3); (9, 3)]%Q) "pixel" false ""
                              (star_session, []))))
        = Some (map (λ c, fst (cut_center_auto (fov_image star_session) c
                                 (Some "center_gaussian") 2)) ps).
Proof.
  apply (find_PSF_stamps star_session [] 2 (Some [(3, 3); (9, 3)]%Q) "pixel" false "").
  reflexivity.
Defined.

Lemma find_PSF_unknown_pos_type_witness :
  find_PSF 2 (Some [(3, 3)%Q]) "sky" false "" (star_session, [])
  = (Raise (AttributeError "PSF_pos_list"), (star_session, [])).
Proof.
  apply (find_PSF_unknown_pos_type star_session [] 2 [(3, 3)%Q] "sky" false "");
    discriminate.
Defined.

(** On the star field the automatic choice is the first of the two sharp
    sources. *)
Lemma find_PSF_search_positions_witness :
  ∃ ps, PSF_pos_list (fst (snd (find_PSF 2 None "pixel" false "" (star_session, []))))
        = Some ps
      ∧ (∀ p, p ∈ ps → ∃ c, c ∈ kept star_session 2 ∧ p = Pos (c_loc c))
      ∧ (false = false →
         ∃ c, ps = [Pos (c_loc c)] ∧ c ∈ kept star_session 2
            ∧ ∀ c', c' ∈ kept star_session 2 → (c_fwhm c <= c_fwhm c')%Q).
Proof.
  apply (find_PSF_search_positions star_session [] 2 "pixel" false "").
  reflexivity.
Defined.

Lemma find_PSF_no_candidate_witness :
  find_PSF 2 None "pixel" false "" (flat_session, [])
  = (Raise (ValueError "zero-size array to reduction operation minimum"),
     (flat_session, [])).
Proof.
  apply (find_PSF_no_candidate flat_session [] 2 "pixel" ""). reflexivity.
Defined.

Lemma find_PSF_interactive_no_choice_witness :
  ∃ s', find_PSF 2 None "pixel" true "none" (star_session, [])
        = (Ok tt, (s', [] ++ listing star_session 2 (kept star_session 2)))
      ∧ length (listing star_session 2 (kept star_session 2))
        = (2 * length (kept star_session 2))%nat
      ∧ PSF_pos_list s' = Some [] ∧ PSF_list s' = Some [].
Proof.
  apply (find_PSF_interactive_no_choice star_session [] 2 "pixel" "none").
  reflexivity.
Defined.

(** On the star field the listing has four lines, two for each of the two
    sharp sources. *)
Example star_field_listing :
  listing star_session 2 (kept star_session 2)
  = ["PSF location: [3/1 3/1]"; "id: 0 FWHMs: [2/1 2/1] flux: 22/1";
     "PSF location: [9/1 3/1]"; "id: 1 FWHMs: [2/1 2/1] flux: 22/1"].
Proof. reflexivity. Qed.

(** A typed superscript two (code point 178) is numeric and not decimal. *)
Example superscript_two_refused :
  isnumeric (String "178"%char EmptyString) = true
  ∧ find_PSF 2 None "pixel" true (String "178"%char EmptyString) (star_session, [])
    = (Raise (ValueError ("invalid literal for int() with base 10: '"
                            ++ String "178"%char "'")),
       (star_session, listing star_session 2 (kept star_session 2))).
Proof. split; reflexivity. Qed.

(** ** [checkout], beyond the frame *)

Lemma checklist_lines_distinct (n1 n2 : string) :
  n1 ∈ checklist → n2 ∈ checklist → missing_line n1 = missing_line n2 → n1 = n2.
Proof.
  unfold checklist. intros H1 H2.
  repeat (apply elem_of_cons in H1 as [->|H1]);
    try (by apply elem_of_nil in H1);
    repeat (apply elem_of_cons in H2 as [->|H2]);
    try (by apply elem_of_nil in H2);
    intros H; first [reflexivity | discriminate H].
Qed.

Lemma ready_line_not_missing_line (n : string) :
  n ∈ checklist → ready_line ≠ missing_line n.
Proof.
  unfold checklist. intros H.
  repeat (apply elem_of_cons in H as [->|H]); try (by apply elem_of_nil in H);
    discriminate.
Qed.

Section CheckoutMore.
Context {T : Tools}.
Implicit Type s : DataProcess ndarray.
Implicit Type h : heap.

Lemma selected_after_trim s s' (k : nat) (psf : ndarray) (l : list ndarray) :
  selected s = Some (k, psf) → PSF_list s = Some l →
  PSF_list s' = Some (<[k:=trim psf]> l) → same_but_PSF_list s s' →
  selected s' = Some (k, trim psf).
Proof.
  intros Hsel Hl Hl' Hsame.
  destruct (selected_Some _ _ _ Hsel) as (l0 & i & Hl0 & Hi & Hk & Hp).
  assert (l0 = l) as -> by congruence.
  destruct Hsame as (_ & _ & _ & _ & _ & _ & _ & Hid & _).
  unfold selected. rewrite Hl'. simpl. rewrite Hid, Hi. simpl.
  rewrite length_insert, Hk. simpl.
  rewrite list_lookup_insert_eq; [done|]. by eapply lookup_lt_Some.
Qed.

(** X20.  When the selected stamp is square (or its first axis is empty),
    [checkout] raises nothing and changes neither the session nor the
    store.  It prints the line of a checklist field exactly when that
    field is absent, and the readiness line exactly when no field is
    absent; so it always prints at least one line. *)
Theorem checkout_report s h (out : list string) (k : nat) (psf : ndarray) :
  selected s = Some (k, psf) →
  nrows psf = 0%nat ∨ nrows psf = ncols psf →
  ∃ lines, checkout ((s, h), out) = (Ok tt, ((s, h), out ++ lines))
         ∧ (∀ name, name ∈ checklist →
                    (missing_line name ∈ lines ↔ hasattr s name = false))
         ∧ (ready_line ∈ lines ↔ ∀ name, name ∈ checklist → hasattr s name = true)
         ∧ lines ≠ [].
Proof.
  intros Hsel Hsq. exists (report_lines s).
  split; [by eapply checkout_square|].
  unfold report_lines, missing_fields. split; [|split].
  - intros name Hname. rewrite elem_of_app, list_elem_of_fmap. split.
    + intros [(n & Heq & Hn)|Hin].
      * apply list_elem_of_filter in Hn as [Hn Hc].
        by rewrite (checklist_lines_distinct _ _ Hname Hc Heq).
      * destruct (decide _); [|by apply elem_of_nil in Hin].
        apply list_elem_of_singleton in Hin.
        by apply ready_line_not_missing_line in Hname.
    + intros Hn. left. exists name. split; [done|].
      by apply list_elem_of_filter.
  - rewrite elem_of_app, list_elem_of_fmap. split.
    + intros [(n & Heq & Hn)|Hin].
      * apply list_elem_of_filter in Hn as [_ Hc].
        by apply ready_line_not_missing_line in Hc.
      * destruct (decide _) as [E|]; [|by apply elem_of_nil in Hin].
        intros name Hname. destruct (hasattr s name) eqn:Hn; [done|].
        assert (name ∈ filter (λ n, hasattr s n = false) checklist)
          by (by apply list_elem_of_filter).
        rewrite E in H. by apply elem_of_nil in H.
    + intros Hall. right. rewrite decide_True; [by apply list_elem_of_singleton|].
      destruct (filter _ checklist) as [|n rest] eqn:E; [done|].
      assert (Hn : n ∈ filter (λ n, hasattr s n = false) checklist)
        by (rewrite E; apply elem_of_cons; by left).
      apply list_elem_of_filter in Hn as [Hn Hc]. by rewrite (Hall n Hc) in Hn.
  - destruct (decide _) as [E|]; [by rewrite E|].
    destruct (filter _ checklist); [done|]. done.
Qed.

(** X21.  [checkout] is stable: after a call that returned, a second call
    returns too and leaves the session and the store exactly as the first
    one left them; a stamp is trimmed and divided at most once. *)
Theorem checkout_twice s h (out : list string) s' h' (out' : list string) :
  checkout ((s, h), out) = (Ok tt, ((s', h'), out')) →
  checkout ((s', h'), out') = (Ok tt, ((s', h'), out' ++ report_lines s')).
Proof.
  intros Hrun. destruct (selected s) as [[k psf]|] eqn:Hsel.
  - destruct (decide (nrows psf = 0%nat ∨ nrows psf = ncols psf)) as [Hsq|Hnsq].
    + rewrite (checkout_square _ _ _ _ _ Hsel Hsq) in Hrun.
      injection Hrun as <- <- <-. by eapply checkout_square.
    + destruct (checkout_not_square s h out k psf Hsel ltac:(tauto) ltac:(tauto))
        as (s1 & l & Hl & Hl1 & Hsame & Hrun1).
      rewrite Hrun1 in Hrun.
      destruct (nrows (trim psf) =? ncols (trim psf))%nat eqn:Hsq; [|done].
      injection Hrun as <- <- <-.
      eapply checkout_square; [by eapply selected_after_trim|].
      right. by apply Nat.eqb_eq.
  - destruct (checkout_not_selected s h out Hsel) as (e & He & _).
    by rewrite He in Hrun.
Qed.

Lemma trim_odd_by_one (psf : ndarray) :
  Z.even (Z.of_nat (nrows psf) - Z.of_nat (ncols psf)) = false →
  nrows (trim psf) = S (ncols (trim psf)) ∨ ncols (trim psf) = S (nrows (trim psf)).
Proof.
  intros Hodd. assert (Ho : Z.odd (Z.of_nat (nrows psf) - Z.of_nat (ncols psf)) = true)
    by (by rewrite <- Z.negb_even, Hodd).
  apply Z.odd_spec in Ho as [q Hq]. unfold trim, int_div.
  rewrite Hq, quot2_odd. destruct psf as [b r0 c0 nr nc];
    cbn [nrows ncols row0 col0 base] in *.
  destruct (Z.ltb_spec q 0) as [Hneg|Hge].
  - destruct (Z.ltb_spec 0 (q + 1)); [lia|].
    destruct (Z.ltb_spec (q + 1) 0) as [Hlt|Hz].
    + unfold slice_cols; cbn [nrows ncols row0 col0 base].
      rewrite slice_bounds_cut_neg by lia. cbn [fst snd nrows ncols]. lia.
    + cbn [nrows ncols]. lia.
  - destruct (Z.ltb_spec 0 q) as [Hpos|Hz].
    + unfold slice_rows; cbn [nrows ncols row0 col0 base].
      rewrite slice_bounds_cut by lia. cbn [fst snd nrows ncols]. lia.
    + destruct (Z.ltb_spec q 0); [lia|]. cbn [nrows ncols]. lia.
Qed.

(** X22.  A call that fails on a stamp whose axis lengths differ by an odd
    number has already changed things: the list entry is the trimmed view,
    whose axis lengths now differ by one, its pixels are divided by their
    sum in the store, and the box notice is the only line printed: the
    checklist is not walked. *)
Theorem checkout_failure_mutates s h (out : list string) (k : nat) (psf : ndarray) :
  selected s = Some (k, psf) →
  nrows psf ≠ 0%nat →
  Z.even (Z.of_nat (nrows psf) - Z.of_nat (ncols psf)) = false →
  ∃ s' h' l,
    checkout ((s, h), out)
    = (Raise (ValueError "PSF shape is not a square."), ((s', h'), out ++ [box_line]))
    ∧ PSF_list s = Some l
    ∧ PSF_list s' = Some (<[k:=trim psf]> l)
    ∧ (nrows (trim psf) = S (ncols (trim psf))
       ∨ ncols (trim psf) = S (nrows (trim psf)))
    ∧ read h' (trim psf)
      = map_image (λ x, x / np_sum (read h (trim psf)))%Q (read h (trim psf)).
Proof.
  intros Hsel H0 Hodd.
  assert (Hne : nrows psf ≠ ncols psf).
  { intros E. rewrite E, Z.sub_diag in Hodd. done. }
  destruct (checkout_not_square s h out k psf Hsel H0 Hne)
    as (s' & l & Hl & Hl' & _ & Hrun).
  pose proof (trim_odd _ Hodd) as Hns. apply Nat.eqb_neq in Hns.
  rewrite Hns in Hrun.
  exists s', (idiv (trim psf) (np_sum (read h (trim psf))) h), l.
  split; [done|]. split; [done|]. split; [done|].
  split; [by apply trim_odd_by_one|]. apply read_idiv.
Qed.

(** X23.  [checkout] returns exactly when the selection expression has a
    value and the selected stamp either has an empty first axis or has
    axis lengths that differ by an even number (zero included); in every
    other case it raises. *)
Theorem checkout_returns_iff s h (out : list string) :
  fst (checkout ((s, h), out)) = Ok tt
  ↔ ∃ k psf, selected s = Some (k, psf)
           ∧ (nrows psf = 0%nat
              ∨ Z.even (Z.of_nat (nrows psf) - Z.of_nat (ncols psf)) = true).
Proof.
  destruct (selected s) as [[k psf]|] eqn:Hsel.
  - destruct (decide (nrows psf = 0%nat ∨ nrows psf = ncols psf)) as [Hsq|Hnsq].
    + rewrite (checkout_square _ _ _ _ _ Hsel Hsq). split; [|done].
      intros _. exists k, psf. split; [done|].
      destruct Hsq as [?|E]; [by left|]. right. by rewrite E, Z.sub_diag.
    + destruct (checkout_not_square s h out k psf Hsel ltac:(tauto) ltac:(tauto))
        as (s1 & l & _ & _ & _ & Hrun).
      rewrite Hrun.
      destruct (Z.even (Z.of_nat (nrows psf) - Z.of_nat (ncols psf))) eqn:Heven.
      * rewrite (trim_even _ Heven), Nat.eqb_refl. split; [|done].
        intros _. exists k, psf. split; [done|]. by right.
      * pose proof (trim_odd _ Heven) as Hns. apply Nat.eqb_neq in Hns.
        rewrite Hns. split; [done|].
        intros (k' & psf' & [= <- <-] & [?|?]); [tauto|congruence].
  - destruct (checkout_not_selected s h out Hsel) as (e & He & _). rewrite He.
    split; [done|]. by intros (? & ? & ? & _).
Qed.
End CheckoutMore.

Lemma checkout_report_witness :
  ∃ lines, checkout ((checkout_session (Some [NdArray 0 0 0 3 3]) None,
                      checkout_heap 3 3), [])
           = (Ok tt, ((checkout_session (Some [NdArray 0 0 0 3 3]) None,
                       checkout_heap 3 3), [] ++ lines))
         ∧ (∀ name, name ∈ checklist →
                    (missing_line name ∈ lines
                     ↔ hasattr (checkout_session (Some [NdArray 0 0 0 3 3]) None) name
                       = false))
         ∧ (ready_line ∈ lines
            ↔ ∀ name, name ∈ checklist →
                      hasattr (checkout_session (Some [NdArray 0 0 0 3 3]) None) name
                      = true)
         ∧ lines ≠ [].
Proof.
  apply (checkout_report (checkout_session (Some [NdArray 0 0 0 3 3]) None)
           (checkout_heap 3 3) [] 0 (NdArray 0 0 0 3 3) eq_refl).
  right. reflexivity.
Defined.

(** The stamp of shape (5, 3) is trimmed by the first call; the second call
    finds it square. *)
Lemma checkout_twice_witness :
  checkout (fst (snd (checkout ((full_session 5 3, checkout_heap 5 3), []))),
            snd (snd (checkout ((full_session 5 3, checkout_heap 5 3), []))))
  = (Ok tt,
     (fst (snd (checkout ((full_session 5 3, checkout_heap 5 3), []))),
      snd (snd (checkout ((full_session 5 3, checkout_heap 5 3), [])))
      ++ report_lines
           (fst (fst (snd (checkout ((full_session 5 3, checkout_heap 5 3), []))))))).
Proof.
  destruct (snd (checkout ((full_session 5 3, checkout_heap 5 3), [])))
    as [[s' h'] out'] eqn:E. cbn [fst snd].
  apply (checkout_twice (full_session 5 3) (checkout_heap 5 3) [] s' h' out').
  transitivity (fst (checkout ((full_session 5 3, checkout_heap 5 3), [])),
                snd (checkout ((full_session 5 3, checkout_heap 5 3), []))).
  - by destruct (checkout ((full_session 5 3, checkout_heap 5 3), [])).
  - rewrite E. f_equal.
Defined.

Lemma checkout_failure_mutates_witness :
  ∃ s' h' l,
    checkout ((full_session 4 3, checkout_heap 4 3), [])
    = (Raise (ValueError "PSF shape is not a square."), ((s', h'), [] ++ [box_line]))
    ∧ PSF_list (full_session 4 3) = Some l
    ∧ PSF_list s' = Some (<[0%nat:=trim (NdArray 0 0 0 4 3)]> l)
    ∧ (nrows (trim (NdArray 0 0 0 4 3)) = S (ncols (trim (NdArray 0 0 0 4 3)))
       ∨ ncols (trim (NdArray 0 0 0 4 3)) = S (nrows (trim (NdArray 0 0 0 4 3))))
    ∧ read h' (trim (NdArray 0 0 0 4 3))
      = map_image (λ x, x / np_sum (read (checkout_heap 4 3) (trim (NdArray 0 0 0 4 3))))%Q
                  (read (checkout_heap 4 3) (trim (NdArray 0 0 0 4 3))).
Proof.
  apply (checkout_failure_mutates (full_session 4 3) (checkout_heap 4 3) [] 0
           (NdArray 0 0 0 4 3) eq_refl); [discriminate|reflexivity].
Defined.

(** ** The methods in sequence *)

Section Lifecycle.
Context {T : Tools}.
Implicit Type self : DataProcess image.

Lemma generate_ok_state self (out : list string) (ck : option string)
    (radius : option Z) (rl : option (list Z)) (bs : option Q) (cm : bool)
    (ip : option bool) (console : string) σ :
  generate_target_materials ck radius rl bs cm ip console (self, out) = (Ok tt, σ) →
  is_Some (target_stamp (fst σ)) ∧ fov_image (fst σ) = fov_image self.
Proof.
  unfold generate_target_materials, estimate_noise. unfold_monad. simpl.
  destruct (choose_radius self radius rl) as [r|]; simpl; [|done].
  destruct (default (if_plot self) ip), ck as [k|]; simpl.
  all: destruct (fov_noise_map self) as [nm|]; simpl.
  all: try (destruct bs as [bsv|]; simpl;
            (destruct (resolve_exptime _) as [[tm|em]|]; simpl; [done| |done]);
            (destruct (binop Qdiv _ _) as [rt|]; simpl; [|done]);
            (match goal with
             | |- context [bkg_std ?s] => destruct (bkg_std s); simpl; [|done]
             | _ => idtac
             end)).
  all: (destruct cm; [destruct (select_mask _ _ _) as [[rest mk]|]|]; simpl; [|done|]).
  all: intros [= <-]; simpl; by split.
Qed.

Lemma find_PSF_ok_state self (out : list string) (radius : Z)
    (given : option (list (Q * Q))) (pos_type : string) (user_option : bool)
    (console : string) σ :
  find_PSF radius given pos_type user_option console (self, out) = (Ok tt, σ) →
  ∃ ps psfs, PSF_pos_list (fst σ) = Some ps ∧ PSF_list (fst σ) = Some psfs
           ∧ length psfs = length ps
           ∧ target_stamp (fst σ) = target_stamp self
           ∧ target_pos (fst σ) = target_pos self
           ∧ fov_image (fst σ) = fov_image self.
Proof.
  unfold find_PSF, explicit_positions. unfold_monad. simpl.
  destruct given as [given|]; simpl.
  - destruct (String.eqb pos_type "pixel"); simpl.
    + intros [= <-]. eexists _, _. simpl. by rewrite length_map.
    + destruct (String.eqb pos_type "wcs"); simpl.
      * destruct (PSF_pos_list self) as [old|]; simpl; [|done].
        destruct (map_res _ _) as [new|]; simpl; [|done].
        intros [= <-]. eexists _, _. simpl. by rewrite length_map.
      * destruct (PSF_pos_list self) as [old|] eqn:Hold; simpl; [|done].
        intros [= <-]. exists old. eexists. simpl. by rewrite length_map.
  - rewrite choose_positions_run.
    generalize (if user_option then out ++ listing self radius (kept self radius)
                else out).
    intros out'. destruct (if user_option then _ else _) as [chosen|]; simpl; [|done].
    intros [= <-]. eexists _, _. simpl. by rewrite length_map.
Qed.

(** X24.  Once [generate_target_materials] and then [find_PSF] have
    returned, [profiles_compare] has what it needs: it hands over the
    target stamp followed by one stamp per stored PSF position, and
    [plot_overview] hands over the image, the target position left by
    [generate_target_materials] and those PSF positions.  Neither changes
    the session. *)
Theorem presentation_after_materials_and_psf self (out : list string)
    (ck : option string) (radius : option Z) (rl : option (list Z))
    (bs : option Q) (cm : bool) (ip : option bool) (console : string)
    (psf_radius : Z) (given : option (list (Q * Q))) (pos_type : string)
    (user_option : bool) (console' : string) σ1 σ2 :
  generate_target_materials ck radius rl bs cm ip console (self, out) = (Ok tt, σ1) →
  find_PSF psf_radius given pos_type user_option console' σ1 = (Ok tt, σ2) →
  ∃ t ps psfs,
    target_stamp (fst σ1) = Some t
    ∧ PSF_pos_list (fst σ2) = Some ps
    ∧ length psfs = length ps
    ∧ profiles_compare σ2 = (Ok (t :: psfs), σ2)
    ∧ plot_overview σ2
      = (Ok (fov_image self, target_pos (fst σ1), Some ps), σ2).
Proof.
  intros Hgen Hfind.
  apply generate_ok_state in Hgen as [[t Ht] Hfov].
  destruct σ1 as [s1 out1], σ2 as [s2 out2].
  apply find_PSF_ok_state in Hfind
    as (ps & psfs & Hps & Hpsfs & Hlen & Hstamp & Hpos & Hfov').
  cbn [fst] in *.
  exists t, ps, psfs. split; [done|]. split; [done|]. split; [done|].
  unfold profiles_compare, plot_overview. unfold_monad. simpl.
  rewrite Hstamp, Ht. simpl. rewrite Hpsfs. simpl.
  by rewrite Hfov', Hfov, Hpos, Hps.
Qed.

(** X25.  On a session as the constructor leaves it, [plot_overview]
    works, with no PSF centres to draw, while [profiles_compare] raises
    [AttributeError] for the target stamp: it needs
    [generate_target_materials] (and [find_PSF]) to have run. *)
Theorem presentation_on_new_session (fov : option image) (tp : option coords)
    (pos_type : string) (hd : option fits_header) (ex : option (exptime_t image))
    (nm : option image) (rm pl : bool) (z : option Q)
    (s : DataProcess image) (out : list string) :
  init fov tp pos_type hd ex nm rm pl z = (Ok s, out) →
  plot_overview (s, out) = (Ok (fov_image s, target_pos s, None), (s, out))
  ∧ profiles_compare (s, out) = (Raise (AttributeError "target_stamp"), (s, out)).
Proof.
  intros H.
  apply init_Ok_inv in H as (given & loc & pos & img & _ & _ & _ & _ & -> & _).
  by split.
Qed.
End Lifecycle.

Lemma presentation_after_materials_and_psf_witness :
  ∃ t ps psfs,
    target_stamp
      (fst (snd (generate_target_materials None (Some 2) None None false None ""
                   (sample_session None (Some sample_noise_fov), []))))
    = Some t
    ∧ PSF_pos_list
        (fst (snd (find_PSF 1 (Some [(6, 4)%Q]) "pixel" false ""
                     (snd (generate_target_materials None (Some 2) None None false
                             None "" (sample_session None (Some sample_noise_fov), []))))))
      = Some ps
    ∧ length psfs = length ps
    ∧ profiles_compare
        (snd (find_PSF 1 (Some [(6, 4)%Q]) "pixel" false ""
                (snd (generate_target_materials None (Some 2) None None false
                        None "" (sample_session None (Some sample_noise_fov), [])))))
      = (Ok (t :: psfs),
         snd (find_PSF 1 (Some [(6, 4)%Q]) "pixel" false ""
                (snd (generate_target_materials None (Some 2) None None false
                        None "" (sample_session None (Some sample_noise_fov), [])))))
    ∧ plot_overview
        (snd (find_PSF 1 (Some [(6, 4)%Q]) "pixel" false ""
                (snd (generate_target_materials None (Some 2) None None false
                        None "" (sample_session None (Some sample_noise_fov), [])))))
      = (Ok (fov_image (sample_session None (Some sample_noise_fov)),
             target_pos
               (fst (snd (generate_target_materials None (Some 2) None None false
                            None "" (sample_session None (Some sample_noise_fov), [])))),
             Some ps),
         snd (find_PSF 1 (Some [(6, 4)%Q]) "pixel" false ""
                (snd (generate_target_materials None (Some 2) None None false
                        None "" (sample_session None (Some sample_noise_fov), []))))).
Proof.
  apply (presentation_after_materials_and_psf
           (sample_session None (Some sample_noise_fov)) []
           None (Some 2) None None false None "" 1 (Some [(6, 4)%Q]) "pixel" false "");
    reflexivity.
Defined.

Lemma presentation_on_new_session_witness :
  ∃ s out, init (T := sample_tools) (Some sample_fov) (Some (PySeq (4, 4)%Q)) "pixel"
             None None None false false (Some 27%Q) = (Ok s, out)
         ∧ plot_overview (s, out) = (Ok (fov_image s, target_pos s, None), (s, out))
         ∧ profiles_compare (s, out)
           = (Raise (AttributeError "target_stamp"), (s, out)).
Proof.
  eexists _, _. split; [reflexivity|].
  apply (presentation_on_new_session (T := sample_tools) (Some sample_fov)
           (Some (PySeq (4, 4)%Q)) "pixel" None None None false false (Some 27%Q) _ _ eq_refl).
Defined.

(** ** The noise formula on the path that works *)

Lemma stretch_same {A} (n : nat) (l : list A) : length l = n → stretch n l = l.
Proof. intros <-. unfold stretch. by rewrite Nat.eqb_refl. Qed.

Lemma broadcast_to_same (a : image) :
  wf_image a → pix (broadcast_to (shape0 a) (shape1 a) a) = pix a.
Proof.
  intros [Hrows Hcols]. unfold broadcast_to. cbn [pix].
  rewrite stretch_same by (by rewrite length_map).
  clear Hrows. induction Hcols as [|r rows Hr _ IH]; [done|]. cbn [map].
  by rewrite stretch_same, IH.
Qed.

Lemma map_zip_with {A B C D} (g : C → D) (f : A → B → C) (l1 : list A) (l2 : list B) :
  map g (zip_with f l1 l2) = zip_with (λ x y, g (f x y)) l1 l2.
Proof.
  revert l2. induction l1 as [|x l1 IH]; intros [|y l2]; cbn; [done..|].
  by rewrite IH.
Qed.

Section NoiseFormula.
Context {T : Tools}.
Implicit Type self : DataProcess image.

(** X27.  With no FOV-wide noise map, a 2D exposure map and no background
    value passed, the call stores the estimate made on the stamp of twice
    the radius, and the noise map has, at each pixel, the value
    sqrt(|stamp / exposure| + estimate^2), the exposure map being cut at
    the same centre and radius as the stamp. *)
Theorem noise_formula_exposure_map self (out : list string) (ck : option string)
    (radius : option Z) (rl : option (list Z)) (cm : bool) (ip : option bool)
    (console : string) (r : Z) (m : image) :
  fov_noise_map self = None →
  choose_radius self radius rl = Ok r →
  exptime self = Some (ExpMap m) →
  wf_image (stamp_cut self ck r) →
  wf_image (cutout (Some m) (center_cut self ck r) r) →
  shape (stamp_cut self ck r) = shape (cutout (Some m) (center_cut self ck r) r) →
  ∃ res σ, generate_target_materials ck radius rl None cm ip console (self, out)
           = (res, σ)
         ∧ bkg_std (fst σ)
           = Some (esti_bgkstd (cutout (fov_image self) (center_cut self ck r) (r * 2)))
         ∧ noise_map (fst σ)
           = Some (Image (shape0 (stamp_cut self ck r)) (shape1 (stamp_cut self ck r))
                     (zip_with (zip_with
                        (λ t e, np_sqrt
                           (Qabs (t / e)
                            + esti_bgkstd (cutout (fov_image self)
                                             (center_cut self ck r) (r * 2)) ^ 2)))
                        (pix (stamp_cut self ck r))
                        (pix (cutout (Some m) (center_cut self ck r) r)))).
Proof.
  intros Hnm Hr Ht Hwf1 Hwf2 Hshape.
  set (b0 := esti_bgkstd (cutout (fov_image self) (center_cut self ck r) (r * 2))).
  assert (Hratio : binop Qdiv (stamp_cut self ck r)
                     (cutout (Some m) (center_cut self ck r) r)
                   = Ok (Image (shape0 (stamp_cut self ck r))
                           (shape1 (stamp_cut self ck r))
                           (zip_with (zip_with Qdiv) (pix (stamp_cut self ck r))
                              (pix (cutout (Some m) (center_cut self ck r) r))))).
  { unfold binop. injection Hshape as H0 H1. rewrite <- H0, <- H1, !bdim_same.
    rewrite broadcast_to_same by done.
    rewrite H0, H1, broadcast_to_same by done. by rewrite <- H0, <- H1. }
  destruct (noise_from_exposure_map self out ck radius rl None cm ip console r m _ b0
              Hnm Hr Ht Hratio eq_refl) as (res & σ & Hrun & Hnoise).
  exists res, σ. split; [done|]. split.
  - revert Hrun. clear Hnoise.
    unfold generate_target_materials, estimate_noise, stamp_cut, center_cut in *.
    unfold_monad. simpl. rewrite Hr.
    destruct (default (if_plot self) ip), ck; simpl; rewrite Hnm; simpl;
      unfold resolve_exptime; simpl; rewrite Ht; simpl; rewrite Hratio; simpl;
      (destruct cm; [destruct (select_mask _ _ _)|]); simpl;
      intros [= _ <-]; reflexivity.
  - rewrite Hnoise. unfold map_image. cbn [shape0 shape1 pix]. do 2 f_equal.
    rewrite map_zip_with. apply zip_with_ext; [|done..].
    intros row1 row2. by rewrite map_zip_with.
Qed.
End NoiseFormula.

Lemma noise_formula_exposure_map_witness :
  ∃ res σ, generate_target_materials None (Some 2) None None false None ""
             (sample_session (Some (ExpMap sample_exposure_map)) None, [])
           = (res, σ)
         ∧ bkg_std (fst σ)
           = Some (esti_bgkstd (cutout (Some sample_fov) (4, 4) (2 * 2)))
         ∧ noise_map (fst σ)
           = Some (Image 5 5
                     (zip_with (zip_with
                        (λ t e, np_sqrt
                           (Qabs (t / e)
                            + esti_bgkstd (cutout (Some sample_fov) (4, 4) (2 * 2)) ^ 2)))
                        (pix (cutout (Some sample_fov) (4, 4) 2))
                        (pix (cutout (Some sample_exposure_map) (4, 4) 2)))).
Proof.
  apply (noise_formula_exposure_map
           (sample_session (Some (ExpMap sample_exposure_map)) None) []
           None (Some 2) None false None "" 2 sample_exposure_map);
    try reflexivity.
  - split; [reflexivity|]. repeat constructor.
  - split; [reflexivity|]. repeat constructor.
Defined.

Lemma explicit_bkg_std_stale_witness :
  ∃ res σ, generate_target_materials None (Some 2) None (Some (7 # 1)%Q) false None ""
             (set_bkg_std (1 # 10)%Q
                (sample_session (Some (ExpMap sample_exposure_map)) None), [])
           = (res, σ)
         ∧ noise_map (fst σ)
           = Some (map_image (λ x, np_sqrt (Qabs x + (1 # 10) ^ 2))
                     (Image 5 5
                        (zip_with (zip_with Qdiv)
                           (pix (cutout (Some sample_fov) (4, 4) 2))
                           (pix (cutout (Some sample_exposure_map) (4, 4) 2))))).
Proof.
  apply (explicit_bkg_std_stale
           (set_bkg_std (1 # 10)%Q
              (sample_session (Some (ExpMap sample_exposure_map)) None)) []
           None (Some 2) None (7 # 1) false None "" 2 sample_exposure_map);
    reflexivity.
Defined.

Lemma init_pixel_integer_position_witness :
  ∃ s out, init (T := sample_tools) (Some sample_fov)
             (Some (FloatArray (inject_Z 4, inject_Z 4)))
             "pixel" None None None false false (Some 27%Q) = (Ok s, out)
         ∧ target_pos s = (4, 4).
Proof.
  eexists _, _. split; [reflexivity|].
  apply (init_pixel_integer_position (T := sample_tools) (Some sample_fov)
           (FloatArray (inject_Z 4, inject_Z 4)) 4 4
           None None None false false (Some 27%Q) _ _ eq_refl eq_refl eq_refl eq_refl).
Defined.

(** ** [find_PSF] with sky positions on a session that holds positions *)

Lemma map_res_app_raise {A B} (f : A → res B) (l1 l2 : list A) (ys : list B)
    (e : exn) :
  map_res f l1 = Ok ys → map_res f l2 = Raise e → map_res f (l1 ++ l2) = Raise e.
Proof.
  revert ys. induction l1 as [|x l1 IH]; intros ys; cbn [map_res app]; [done|].
  destruct (f x) as [y|]; [|done].
  destruct (map_res f l1) as [ys'|] eqn:E; [|done].
  intros _ H2. by rewrite (IH ys' eq_refl H2).
Qed.

Section FindPSFWcs.
Context {T : Tools}.
Implicit Type self : DataProcess image.

(** X30.  With position type ['wcs'], when the session holds more
    positions than are given, the comprehension runs past the end of the
    given list: the call raises [IndexError] and stores nothing. *)
Theorem find_PSF_wcs_short_list self (out : list string) (radius : Z)
    (given : list (Q * Q)) (old : list pos_value) (user_option : bool)
    (console : string) :
  PSF_pos_list self = Some old →
  (length given < length old)%nat →
  find_PSF radius (Some given) "wcs" user_option console (self, out)
  = (Raise IndexError, (self, out)).
Proof.
  intros Hold Hlen. unfold find_PSF, explicit_positions. unfold_monad. simpl.
  rewrite Hold. simpl.
  replace (length old) with (length given + (length old - length given))%nat by lia.
  rewrite seq_app.
  erewrite map_res_app_raise; [done| |].
  - apply (map_res_seq_getitem
             (λ p, PosRows (all_world2pix (header self) [p] 1)) given (length given)).
    done.
  - destruct (length old - length given)%nat as [|n] eqn:E; [lia|].
    cbn [seq map_res]. unfold getitem, py_index. cbn [Nat.add].
    destruct (Z.ltb_spec (Z.of_nat (length given)) 0); [lia|].
    destruct (Z.ltb_spec (Z.of_nat (length given)) (Z.of_nat (length given))); [lia|].
    by rewrite andb_false_r.
Qed.
End FindPSFWcs.

Lemma find_PSF_wcs_after_earlier_call_witness :
  ∃ σ, find_PSF 2 (Some [(3 # 10, 3 # 10); (9 # 10, 3 # 10)]%Q) "wcs" false ""
         (set_PSF_pos_list [Pos (3, 3)%Q] star_session, [])
       = (Ok tt, σ)
     ∧ PSF_pos_list (fst σ)
       = Some (map (λ p, PosRows (all_world2pix None [p] 1))
                   (take 1 [(3 # 10, 3 # 10); (9 # 10, 3 # 10)]%Q)).
Proof.
  apply (find_PSF_wcs_after_earlier_call
           (set_PSF_pos_list [Pos (3, 3)%Q] star_session) [] 2
           [(3 # 10, 3 # 10); (9 # 10, 3 # 10)]%Q [Pos (3, 3)%Q] false "").
  - reflexivity.
  - simpl. lia.
Defined.

Lemma find_PSF_wcs_short_list_witness :
  find_PSF 2 (Some [(3 # 10, 3 # 10)%Q]) "wcs" false ""
    (set_PSF_pos_list [Pos (3, 3)%Q; Pos (9, 3)%Q] star_session, [])
  = (Raise IndexError,
     (set_PSF_pos_list [Pos (3, 3)%Q; Pos (9, 3)%Q] star_session, [])).
Proof.
  apply (find_PSF_wcs_short_list
           (set_PSF_pos_list [Pos (3, 3)%Q; Pos (9, 3)%Q] star_session) [] 2
           [(3 # 10, 3 # 10)%Q] [Pos (3, 3)%Q; Pos (9, 3)%Q] false "").
  - reflexivity.
  - simpl. lia.
Defined.
